(** * gplay_mobile_search: pagination, de-duplication and response normalisation

    A shallow embedding of [src/gplay_mobile_search.py] (class [MobilePlayAPI])
    and the properties of its record normaliser, response extractor,
    credential-cache loader and paginated search driver.

    The remote protocol client ([playstoreapi.GooglePlayAPI]) is external to
    the file: it is a parameter of the development, a state machine that
    answers a search request with a document or with an exception. *)

From Stdlib Require Import List ZArith Bool Ascii String Lia.
From Stdlib Require Import SpecFloat.
Import ListNotations.

Local Open Scope string_scope.
Local Open Scope list_scope.
Local Open Scope Z_scope.

(** ** Python values

    The documents handed over by the remote client are untyped nested
    JSON-like data.  Floats are IEEE binary64 numbers ([spec_float] with
    [prec = 53] and [emax = 1024]).  A [str] is a sequence of code points;
    the embedding covers the code points below 256, one [ascii] each.  A
    [dict] has string keys and keeps insertion order: it is an association
    list, looked up by first match. *)

Definition float := spec_float.

#[warnings="-register-all"]
Inductive value : Type :=
| VNone
| VBool (b : bool)
| VInt (z : Z)
| VFloat (f : float)
| VStr (s : string)
| VList (l : list value)
| VDict (d : list (string * value)).

Definition dict := list (string * value).

(** Exception classes: those that the modelled code raises by itself, an
    error of the client, and [KeyboardInterrupt], which derives from
    [BaseException] and not from [Exception]. *)
Inductive exn : Type :=
| AttributeError
| TypeError
| ValueError
| OverflowError
| ClientError (msg : string)
| KeyboardInterrupt.

(** A computation that returns or raises. *)
Inductive result (A : Type) : Type :=
| Ok (a : A)
| Raise (e : exn).
Arguments Ok {A} a.
Arguments Raise {A} e.

Definition bind {A B} (c : result A) (k : A -> result B) : result B :=
  match c with
  | Ok a => k a
  | Raise e => Raise e
  end.

Declare Scope py_scope.
Delimit Scope py_scope with py.
Notation "'do' x <~ c ; k" := (bind c (fun x => k))
  (at level 10, x name, c at level 100, k at level 200) : py_scope.
Notation "'do' ' p <~ c ; k" := (bind c (fun x => match x with p => k end))
  (at level 10, p pattern, c at level 100, k at level 200) : py_scope.
Local Open Scope py_scope.

Definition returns {A} (c : result A) : bool :=
  match c with Ok _ => true | Raise _ => false end.

(** *** Binary64 arithmetic *)

Definition prec : Z := 53.
Definition emax : Z := 1024.

Definition float_zero : float := S754_zero false.

(** The float nearest to an integer of any size (ties to even). *)
Definition float_of_Z (z : Z) : float := binary_normalize prec emax z 0 false.

Definition is_infinite (f : float) : bool :=
  match f with S754_infinity _ => true | _ => false end.

(** [a / b] on two [int]s, for [b <> 0]: the exact quotient rounded once to
    the nearest float; CPython raises OverflowError when the rounded
    quotient is out of the float range.  An [int] of any size is the
    significand of an unrounded operand with exponent 0. *)
Definition int_exact (z : Z) : float :=
  match z with
  | Z0 => S754_zero false
  | Zpos p => S754_finite false p 0
  | Zneg p => S754_finite true p 0
  end.

Definition int_quotient (a b : Z) : float :=
  SFdiv prec emax (int_exact a) (int_exact b).

Definition int_true_div (a b : Z) : result float :=
  let q := int_quotient a b in
  if is_infinite q then Raise OverflowError else Ok q.

(** [x / b] for a float [x] and a non-zero int [b] that converts exactly. *)
Definition float_div_int (x : float) (b : Z) : float :=
  SFdiv prec emax x (float_of_Z b).

(** [f == z] for a float and an int: Python compares the exact values. *)
Definition float_eq_int (f : float) (z : Z) : bool :=
  match f with
  | S754_zero _ => z =? 0
  | S754_finite s m e =>
      let sm := if s then Z.neg m else Z.pos m in
      if 0 <=? e then z =? sm * 2 ^ e else z * 2 ^ (- e) =? sm
  | _ => false
  end.

(** The exact rational value of a finite float as numerator and power of
    two: [(n, k)] stands for [n * 2^k]. *)
Definition float_exact (f : float) : option (Z * Z) :=
  match f with
  | S754_zero _ => Some (0, 0)
  | S754_finite s m e => Some (if s then Z.neg m else Z.pos m, e)
  | _ => None
  end.

(** *** Truth value, [or], equality, hashing, iteration *)

Definition int_of_bool (b : bool) : Z := if b then 1 else 0.

Definition truthy (v : value) : bool :=
  match v with
  | VNone => false
  | VBool b => b
  | VInt z => negb (z =? 0)
  | VFloat f => negb (SFeqb f float_zero)
  | VStr s => negb (s =? "")%string
  | VList l => match l with [] => false | _ => true end
  | VDict d => match d with [] => false | _ => true end
  end.

(** [x or y] *)
Definition py_or (x y : value) : value := if truthy x then x else y.

(** [hash(v)] raises TypeError on lists and dicts. *)
Definition hashable (v : value) : bool :=
  match v with
  | VList _ | VDict _ => false
  | _ => true
  end.

(** [x == y] on hashable values; [bool] is a subclass of [int]. *)
Definition py_eq (x y : value) : bool :=
  match x, y with
  | VNone, VNone => true
  | VStr a, VStr b => (a =? b)%string
  | VBool a, VBool b => Bool.eqb a b
  | VBool a, VInt b => int_of_bool a =? b
  | VInt a, VBool b => a =? int_of_bool b
  | VInt a, VInt b => a =? b
  | VFloat a, VFloat b => SFeqb a b
  | VFloat a, VInt b => float_eq_int a b
  | VInt a, VFloat b => float_eq_int b a
  | VFloat a, VBool b => float_eq_int a (int_of_bool b)
  | VBool a, VFloat b => float_eq_int b (int_of_bool a)
  | _, _ => false
  end.

(** [for x in v]: the elements of a list, the keys of a dict, the
    characters of a str; anything else is not iterable. *)
Fixpoint chars (s : string) : list value :=
  match s with
  | EmptyString => []
  | String c r => VStr (String c EmptyString) :: chars r
  end.

Definition py_iter (v : value) : result (list value) :=
  match v with
  | VList l => Ok l
  | VDict d => Ok (map (fun kv => VStr (fst kv)) d)
  | VStr s => Ok (chars s)
  | _ => Raise TypeError
  end.

(** *** Dictionaries *)

Fixpoint lookup (k : string) (d : dict) : option value :=
  match d with
  | [] => None
  | (k', v) :: r => if (k =? k')%string then Some v else lookup k r
  end.

(** [k in d] *)
Definition has_key (k : string) (d : dict) : bool :=
  match lookup k d with Some _ => true | None => false end.

(** [d.get(k, default)] and [d.get(k)] *)
Definition get_or (d : dict) (k : string) (default : value) : value :=
  match lookup k d with Some v => v | None => default end.

Definition get (d : dict) (k : string) : value := get_or d k VNone.

(** Attribute access [v.get]: only a dict has the method. *)
Definition as_dict (v : value) : result dict :=
  match v with
  | VDict d => Ok d
  | _ => Raise AttributeError
  end.

(** *** Strings *)

(** [needle in hay] *)
Fixpoint str_contains (needle hay : string) : bool :=
  String.prefix needle hay ||
  match hay with
  | EmptyString => false
  | String _ r => str_contains needle r
  end.

Definition is_decimal (c : ascii) : bool :=
  let n := N_of_ascii c in ((48 <=? n) && (n <=? 57))%N.

(** Below code point 256 the characters with the Unicode property
    Numeric_Type=Digit or Decimal are 0-9 and the superscripts
    U+00B2, U+00B3 and U+00B9. *)
Definition is_digit_char (c : ascii) : bool :=
  let n := N_of_ascii c in
  is_decimal c || (n =? 178)%N || (n =? 179)%N || (n =? 185)%N.

Fixpoint all_chars (p : ascii -> bool) (s : string) : bool :=
  match s with
  | EmptyString => true
  | String c r => p c && all_chars p r
  end.

(** [s.isdigit()] *)
Definition isdigit (s : string) : bool :=
  negb (s =? "")%string && all_chars is_digit_char s.

Fixpoint decimal_value (acc : Z) (s : string) : Z :=
  match s with
  | EmptyString => acc
  | String c r => decimal_value (10 * acc + Z.of_N (N_of_ascii c) - 48) r
  end.

(** CPython's default limit on the digits of a decimal literal given to
    [int()] ([sys.int_info.default_max_str_digits]). *)
Definition int_max_str_digits : nat := 4300.

(** [int(s)] for a [str] on which [isdigit] holds: the superscript digits
    are no decimal digits, and [int] refuses them. *)
Definition int_of_str (s : string) : result Z :=
  if all_chars is_decimal s && negb (s =? "")%string then
    if (int_max_str_digits <? String.length s)%nat then Raise ValueError
    else Ok (decimal_value 0 s)
  else Raise ValueError.

(** [s.split(sep)[0]]: what precedes the first separator. *)
Fixpoint before_char (sep : ascii) (s : string) : string :=
  match s with
  | EmptyString => EmptyString
  | String c r => if Ascii.eqb c sep then EmptyString
                  else String c (before_char sep r)
  end.

(** [v.split("@")[0]]: [split] is a method of [str]. *)
Definition split_at_first (v : value) : result value :=
  match v with
  | VStr s => Ok (VStr (before_char "@"%char s))
  | _ => Raise AttributeError
  end.

(** [v[:n]] for [n >= 0]: a prefix of a str or of a list; other values
    cannot be sliced. *)
Definition slice_to (n : nat) (v : value) : result value :=
  match v with
  | VStr s => Ok (VStr (String.substring 0 n s))
  | VList l => Ok (VList (firstn n l))
  | _ => Raise TypeError
  end.

(** ** The record normaliser: [MobilePlayAPI._parse_app] (lines 134-200)

    The method returns a dict with a fixed set of keys; the record below
    has one field per key. *)

Record app_record : Type := mk_app {
  appId : value;
  title : value;
  score : value;
  developer : value;
  developerId : value;
  icon : value;
  installs : value;
  price : float;
  currency : string;
  free : bool;
  summary : value
}.

(** [x / 1_000_000] for an arbitrary value [x]. *)
Definition div_million (x : value) : result float :=
  match x with
  | VInt z => int_true_div z 1000000
  | VBool b => int_true_div (int_of_bool b) 1000000
  | VFloat f => Ok (float_div_int f 1000000)
  | _ => Raise TypeError
  end.

(** Lines 154-157: the "details" block yields [details], [developer] and
    [installs]. *)
Definition parse_details (item : dict) : result (value * value * value) :=
  do outer <~ as_dict (get_or item "details" (VDict []));
  let details := get_or outer "appDetails" (VDict []) in
  if truthy details then
    do d <~ as_dict details;
    Ok (details, get d "developerName", get d "numDownloads")
  else Ok (details, VNone, VNone).

(** Lines 160-162: the aggregate rating. *)
Definition parse_score (item : dict) : result value :=
  let agg := get_or item "aggregateRating" (VDict []) in
  if truthy agg then
    do a <~ as_dict agg;
    Ok (get a "starRating")
  else Ok VNone.

(** Lines 166-169: the loop over the images stops at the first image whose
    type is 4. *)
Fixpoint find_icon (images : list value) : result value :=
  match images with
  | [] => Ok VNone
  | img :: rest =>
      do i <~ as_dict img;
      if py_eq (get i "imageType") (VInt 4) then Ok (get i "imageUrl")
      else find_icon rest
  end.

Definition parse_icon (item : dict) : result value :=
  do images <~ py_iter (get_or item "image" (VList []));
  find_icon images.

(** Lines 177-178: a [str] of micros is converted when it is a digit
    string and replaced by 0 otherwise. *)
Definition micros_number (micros : value) : result value :=
  match micros with
  | VStr s => if isdigit s then (do z <~ int_of_str s; Ok (VInt z))
              else Ok (VInt 0)
  | _ => Ok micros
  end.

(** Lines 172-180: the offer block yields [price] and [free]. *)
Definition parse_offer (item : dict) : result (float * bool) :=
  let offer := get_or item "offer" (VList []) in
  if truthy offer then
    let first_offer := match offer with
                       | VList l => hd VNone l
                       | _ => offer
                       end in
    match first_offer with
    | VDict fo =>
        do micros <~ micros_number (get_or fo "micros" (VInt 0));
        do price <~ div_million micros;
        Ok (price, float_eq_int price 0)
    | _ => Ok (float_zero, true)
    end
  else Ok (float_zero, true).

(** Lines 183-186: the description snippet. *)
Definition parse_summary (item : dict) : result value :=
  if has_key "descriptionHtml" item then
    slice_to 200 (get item "descriptionHtml")
  else if has_key "descriptionShort" item then
    Ok (get item "descriptionShort")
  else Ok VNone.

(** Line 193: the developer identifier, computed from [details] while the
    returned dict is built. *)
Definition parse_developer_id (details : value) : result value :=
  do d <~ as_dict details;
  if truthy (get d "developerEmail") then
    split_at_first (get_or d "developerEmail" (VStr ""))
  else Ok VNone.

Definition _parse_app (item : value) : result app_record :=
  do item <~ as_dict item;
  let app_id := py_or (py_or (get item "id") (get item "docid")) (VStr "") in
  let title := if has_key "title" item then get item "title" else VStr "" in
  do '(details, developer, installs) <~ parse_details item;
  do score <~ parse_score item;
  do icon <~ parse_icon item;
  do '(price, free) <~ parse_offer item;
  do summary <~ parse_summary item;
  do developer_id <~ parse_developer_id details;
  Ok {| appId := app_id;
        title := title;
        score := score;
        developer := developer;
        developerId := developer_id;
        icon := icon;
        installs := installs;
        price := price;
        currency := "USD";
        free := free;
        summary := summary |}.

(** ** The response extractor: [_extract_apps_from_response] (lines 202-241) *)

(** A [for] loop without [break]: the body updates the loop state or
    raises. *)
Fixpoint for_each {A S : Type} (body : A -> S -> result S) (l : list A)
    (s : S) : result S :=
  match l with
  | [] => Ok s
  | x :: r => do s' <~ body x s; for_each body r s'
  end.

(** Lines 217-219 and 228-230: a truthy [nextPageUrl] of the node's
    [containerMetadata] replaces the cursor found so far. *)
Definition update_cursor (node : dict) (next_page_url : value) : result value :=
  do container <~ as_dict (get_or node "containerMetadata" (VDict []));
  if truthy (get container "nextPageUrl") then Ok (get container "nextPageUrl")
  else Ok next_page_url.

(** Lines 233-235: the body of the innermost loop. *)
Definition visit_app (app : value) (apps : list app_record)
  : result (list app_record) :=
  match app with
  | VDict a =>
      if truthy (get a "id") then
        do r <~ _parse_app app; Ok (apps ++ [r])
      else Ok apps
  | _ => Ok apps
  end.

(** Lines 223-235: the body of the loop over the sub-items of a document. *)
Definition visit_cluster (cluster : value) (st : list app_record * value)
  : result (list app_record * value) :=
  let '(apps, next_page_url) := st in
  match cluster with
  | VDict c =>
      do next_page_url <~ update_cursor c next_page_url;
      do inner <~ py_iter (get_or c "subItem" (VList []));
      do apps <~ for_each visit_app inner apps;
      Ok (apps, next_page_url)
  | _ => Ok st
  end.

(** Lines 212-239: the body of the loop over the response. *)
Definition visit_doc (doc : value) (st : list app_record * value)
  : result (list app_record * value) :=
  let '(apps, next_page_url) := st in
  match doc with
  | VDict d =>
      do next_page_url <~ update_cursor d next_page_url;
      do sub_items <~ py_iter (get_or d "subItem" (VList []));
      do '(apps, next_page_url) <~
         for_each visit_cluster sub_items (apps, next_page_url);
      if truthy (get d "id") && negb (truthy (get d "subItem")) then
        do r <~ _parse_app doc; Ok (apps ++ [r], next_page_url)
      else Ok (apps, next_page_url)
  | _ => Ok st
  end.

Definition _extract_apps_from_response (data : value)
  : result (list app_record * value) :=
  do docs <~ py_iter data;
  for_each visit_doc docs ([], VNone).

(** ** The credential cache: [_load_config] (lines 66-74)

    What the file system and the JSON decoder do at the fixed path
    [CONFIG_PATH] is an input of the model: whether the path exists, what
    opening and reading the file gives, what closing it at the end of the
    [with] block gives, and what [json.load] makes of the text.  They are
    independent, so a file that disappears between the test and the
    [open] is covered. *)

Record config_file : Type := {
  path_exists : bool;
  open_read : result string;
  close_file : result unit
}.

(** [try: body / except: pass], followed by [rest]. *)
Definition try_pass {A} (body : result A) (rest : result A) : result A :=
  match body with
  | Ok a => Ok a
  | Raise _ => rest
  end.

Section CredentialCache.

Variable json_load : string -> result value.

Definition _load_config (fs : config_file) : result value :=
  if path_exists fs then
    try_pass
      (do text <~ open_read fs;
       do config <~ json_load text;
       do _ <~ close_file fs;
       Ok config)
      (Ok VNone)
  else Ok VNone.

End CredentialCache.

(** ** The pagination and de-duplication driver: [search] (lines 243-318) *)

Inductive request : Type :=
| ByQuery (query : string)
| ByPage (nextPageUrl : value).

(** The outcome of one attempt (lines 279-293).  The client returns a
    document; or it raises an [Exception] whose text [str(e)] is [msg],
    which the handler of line 285 deals with; or an exception leaves the
    [try] statement: the client raised one that is no [Exception]
    ([KeyboardInterrupt], [SystemExit]), which [except Exception] does not
    catch, or the handler raised in turn (in the [str] of the exception,
    in [print] or in [time.sleep]). *)
Inductive response : Type :=
| Returned (data : value)
| Failed (msg : string)
| Escaped (e : exn).

(** What the driver does to the outside world.  The messages it prints
    are not recorded. *)
Inductive event : Type :=
| Request (r : request)
| Sleep (seconds : Z).

Definition max_retries : nat := 3.

(** [range(n)] *)
Definition range (n : nat) : list Z := map Z.of_nat (seq 0 n).

(** [l[:n]]: a negative [n] counts from the end. *)
Definition list_slice_to {A} (n : Z) (l : list A) : list A :=
  if 0 <=? n then firstn (Z.to_nat n) l
  else firstn (Z.to_nat (Z.of_nat (List.length l) + n)) l.

(** [x in seen] for a set: the element is hashed first, and then compared
    with [==].  Values have no identity in the embedding, so the shortcut
    by which a set finds the very object it holds is not modelled: it
    matters for the float NaN only, which [==] tells from itself. *)
Definition set_mem (x : value) (seen : list value) : result bool :=
  if hashable x then Ok (existsb (py_eq x) seen) else Raise TypeError.

(** Lines 305-312: the loop that appends the new records of a page. *)
Fixpoint add_new (apps : list app_record) (n_hits : Z)
    (all_apps : list app_record) (seen_ids : list value)
  : result (list app_record * list value) :=
  match apps with
  | [] => Ok (all_apps, seen_ids)
  | app :: rest =>
      let app_id := appId app in
      if truthy app_id then
        do known <~ set_mem app_id seen_ids;
        if known then add_new rest n_hits all_apps seen_ids
        else
          let seen_ids := seen_ids ++ [app_id] in
          let all_apps := all_apps ++ [app] in
          if n_hits <=? Z.of_nat (List.length all_apps) then Ok (all_apps, seen_ids)
          else add_new rest n_hits all_apps seen_ids
      else add_new rest n_hits all_apps seen_ids
  end.

Section Driver.

(** The remote client is a state machine.  [login_anonymous] and the
    client's [setLocale] are left abstract: the driver is verified for
    every behaviour they may have. *)
Variable client : Type.
Variable api_search : client -> request -> response * client.
Variable api_setLocale : client -> string -> result client.
Variable str_upper : string -> string.

Record session : Type := {
  api : client;
  _logged_in : bool;
  effects : list event
}.

Variable login_anonymous : session -> result session.

Definition record_event (ev : event) (c : client) (s : session) : session :=
  {| api := c; _logged_in := _logged_in s; effects := effects s ++ [ev] |}.

(** Lines 277-293: one page request, retried while the client reports a
    rate limit.  The result is [data], [VNone] when no attempt returned;
    an exception that leaves the [try] statement leaves the loop. *)
Fixpoint request_with_retry (attempts : list Z) (req : request)
    (s : session) : result value * session :=
  match attempts with
  | [] => (Ok VNone, s)
  | attempt :: rest =>
      let '(resp, c) := api_search (api s) req in
      let s := record_event (Request req) c s in
      match resp with
      | Returned data => (Ok data, s)
      | Failed msg =>
          if str_contains "429" msg then
            let wait_time := (attempt + 1) * 5 in
            request_with_retry rest req (record_event (Sleep wait_time) c s)
          else (Ok VNone, s)
      | Escaped e => (Raise e, s)
      end
  end.

(** Lines 280-283: the first request carries the query, the following
    ones the cursor. *)
Definition page_request (query : string) (next_page : value) : request :=
  if truthy next_page then ByPage next_page else ByQuery query.

Definition is_none (v : value) : bool :=
  match v with VNone => true | _ => false end.

(** Lines 275-316: the [while] loop.  Each unit of fuel pays for one
    iteration; the result is [all_apps] when the loop is left. *)
Fixpoint search_loop (fuel : nat) (query : string) (n_hits : Z)
    (all_apps : list app_record) (next_page : value)
    (seen_ids : list value) (s : session)
  : option (result (list app_record) * session) :=
  match fuel with
  | O => None
  | S fuel =>
      if Z.of_nat (List.length all_apps) <? n_hits then
        let '(attempted, s) :=
          request_with_retry (range max_retries)
            (page_request query next_page) s in
        match attempted with
        | Raise e => Some (Raise e, s)
        | Ok data =>
            if is_none data then Some (Ok all_apps, s)
            else if negb (truthy data) then Some (Ok all_apps, s)
            else
              match _extract_apps_from_response data with
              | Raise e => Some (Raise e, s)
              | Ok (apps, next_page) =>
                  match add_new apps n_hits all_apps seen_ids with
                  | Raise e => Some (Raise e, s)
                  | Ok (all_apps, seen_ids) =>
                      if negb (truthy next_page) then Some (Ok all_apps, s)
                      else search_loop fuel query n_hits all_apps next_page
                             seen_ids s
                  end
              end
        end
      else Some (Ok all_apps, s)
  end.

Definition search (fuel : nat) (s : session) (query : string) (n_hits : Z)
    (lang country : string)
  : option (result (list app_record) * session) :=
  match (if _logged_in s then Ok s else login_anonymous s) with
  | Raise e => Some (Raise e, s)
  | Ok s =>
      match api_setLocale (api s) (lang ++ "_" ++ str_upper country)%string with
      | Raise e => Some (Raise e, s)
      | Ok c =>
          let s := {| api := c; _logged_in := _logged_in s;
                      effects := effects s |} in
          match search_loop fuel query n_hits [] VNone [] s with
          | None => None
          | Some (Raise e, s) => Some (Raise e, s)
          | Some (Ok all_apps, s) => Some (Ok (list_slice_to n_hits all_apps), s)
          end
      end
  end.

End Driver.

Arguments api {client} s.
Arguments _logged_in {client} s.
Arguments effects {client} s.
Arguments record_event {client} ev c s.
Arguments request_with_retry {client} api_search attempts req s.
Arguments search_loop {client} api_search fuel query n_hits all_apps next_page
  seen_ids s.
Arguments search {client} api_search api_setLocale str_upper login_anonymous
  fuel s query n_hits lang country.

(** ** Specification-level notions *)

(** [float_is f num den]: the float [f] is finite and its exact value is
    the rational [num / den]. *)
Definition float_is (f : float) (num den : Z) : Prop :=
  match float_exact f with
  | Some (m, e) =>
      if 0 <=? e then m * 2 ^ e * den = num else m * den = num * 2 ^ (- e)
  | None => False
  end.

Definition is_str (v : value) : bool :=
  match v with VStr _ => true | _ => false end.

Definition is_dict (v : value) : bool :=
  match v with VDict _ => true | _ => false end.

(** *** The documents on which the normaliser returns *)

(** "details" is a dict when present, and so is its "appDetails"; a
    truthy "developerEmail" is a str. *)
Definition details_ok (item : dict) : bool :=
  match get_or item "details" (VDict []) with
  | VDict outer =>
      match get_or outer "appDetails" (VDict []) with
      | VDict d =>
          negb (truthy (get d "developerEmail"))
          || is_str (get d "developerEmail")
      | _ => false
      end
  | _ => false
  end.

(** A truthy "aggregateRating" is a dict. *)
Definition rating_ok (item : dict) : bool :=
  let agg := get_or item "aggregateRating" (VDict []) in
  negb (truthy agg) || is_dict agg.

(** The images are dicts, up to the first one of type 4. *)
Fixpoint icons_ok (images : list value) : bool :=
  match images with
  | [] => true
  | VDict i :: rest => py_eq (get i "imageType") (VInt 4) || icons_ok rest
  | _ :: _ => false
  end.

Definition images_ok (item : dict) : bool :=
  match py_iter (get_or item "image" (VList [])) with
  | Ok images => icons_ok images
  | Raise _ => false
  end.

(** The micros of the first offer are a number whose millionth is in the
    float range, or a str that is not a digit string, or a string of at
    most 4300 decimal digits whose millionth is in the float range. *)
Definition micros_ok (micros : value) : bool :=
  match micros with
  | VInt z => negb (is_infinite (int_quotient z 1000000))
  | VBool _ | VFloat _ => true
  | VStr s =>
      if isdigit s then
        all_chars is_decimal s
        && (String.length s <=? int_max_str_digits)%nat
        && negb (is_infinite (int_quotient (decimal_value 0 s) 1000000))
      else true
  | _ => false
  end.

Definition offer_ok (item : dict) : bool :=
  let offer := get_or item "offer" (VList []) in
  if truthy offer then
    match (match offer with VList l => hd VNone l | _ => offer end) with
    | VDict fo => micros_ok (get_or fo "micros" (VInt 0))
    | _ => true
    end
  else true.

(** "descriptionHtml" is a str or a list when present. *)
Definition summary_ok (item : dict) : bool :=
  if has_key "descriptionHtml" item then
    match get item "descriptionHtml" with
    | VStr _ | VList _ => true
    | _ => false
    end
  else true.

Definition well_shaped (item : dict) : bool :=
  details_ok item && rating_ok item && images_ok item && offer_ok item
  && summary_ok item.

(** The blocks other than the offer have the shape the code relies on. *)
Definition well_shaped_but_offer (item : dict) : bool :=
  details_ok item && rating_ok item && images_ok item && summary_ok item.

(** The float that the literal [1500000.0] denotes. *)
Definition float_1500000 : float := float_of_Z 1500000.

(** *** Cursors and emitted nodes of a response, in the order of the walk *)

(** The truthy cursor of a node's "containerMetadata", if any. *)
Definition node_cursor (node : value) : list value :=
  match node with
  | VDict d =>
      match get_or d "containerMetadata" (VDict []) with
      | VDict c =>
          if truthy (get c "nextPageUrl") then [get c "nextPageUrl"] else []
      | _ => []
      end
  | _ => []
  end.

(** The sub-items of a node. *)
Definition children (node : value) : list value :=
  match node with
  | VDict d =>
      match py_iter (get_or d "subItem" (VList [])) with
      | Ok l => l
      | Raise _ => []
      end
  | _ => []
  end.

(** The cursors that the walk looks at, in its order: that of each
    document (level 1) and then those of its sub-items (level 2).  The
    metadata of a third-level node is not read (lines 233-235). *)
Definition cursors (docs : list value) : list value :=
  flat_map (fun doc => node_cursor doc ++ flat_map node_cursor (children doc))
    docs.

(** The cursors found in the metadata of a node at any of the three
    levels, in document order: those of [cursors] and, after each
    sub-item, those of its own sub-items. *)
Definition cursors_at_any_level (docs : list value) : list value :=
  flat_map
    (fun doc =>
       node_cursor doc
       ++ flat_map
            (fun cluster =>
               node_cursor cluster ++ flat_map node_cursor (children cluster))
            (children doc))
    docs.

Definition has_id (node : value) : bool :=
  match node with
  | VDict d => truthy (get d "id")
  | _ => false
  end.

Definition has_sub_items (node : value) : bool :=
  match node with
  | VDict d => truthy (get d "subItem")
  | _ => false
  end.

(** The nodes that the walk hands to the normaliser: below each document
    the level-3 nodes with an identifier, then the document itself when it
    has an identifier and no sub-items. *)
Definition emitted (docs : list value) : list value :=
  flat_map
    (fun doc =>
       flat_map (fun cluster => filter has_id (children cluster))
         (children doc)
       ++ (if has_id doc && negb (has_sub_items doc) then [doc] else []))
    docs.

(** The normaliser applied to a list of nodes, in order. *)
Fixpoint parse_all (nodes : list value) : result (list app_record) :=
  match nodes with
  | [] => Ok []
  | n :: rest =>
      do r <~ _parse_app n;
      do rs <~ parse_all rest;
      Ok (r :: rs)
  end.

(** *** Identifiers of a result list *)

(** No identifier equals ([==]) an earlier one. *)
Fixpoint distinct_ids (ids : list value) : bool :=
  match ids with
  | [] => true
  | x :: rest => negb (existsb (fun y => py_eq y x) rest) && distinct_ids rest
  end.

(** A page on which the extractor returns and whose records have
    hashable identifiers. *)
Definition page_ok (data : value) : bool :=
  match _extract_apps_from_response data with
  | Ok (apps, _) => forallb (fun r => hashable (appId r)) apps
  | Raise _ => false
  end.

(** The first offer of a document: the head of a list of offers, or the
    offer itself when it is no list. *)
Definition first_offer_is (item : dict) (fo : dict) : Prop :=
  (exists rest, lookup "offer" item = Some (VList (VDict fo :: rest)))
  \/ (lookup "offer" item = Some (VDict fo) /\ fo <> []).

(** What one step of the walk adds to the state: the records of [nodes],
    appended, and the last of [cs] as the cursor. *)
Definition extends (st st' : list app_record * value)
    (nodes cs : list value) : Prop :=
  snd st' = last cs (snd st)
  /\ exists rs, parse_all nodes = Ok rs /\ fst st' = fst st ++ rs.

(** The "id" field of a node. *)
Definition appId_of_node (node : value) : value :=
  match node with
  | VDict d => get d "id"
  | _ => VNone
  end.

(** The events of [k] rate-limited attempts of a request: each one is
    followed by a wait of five seconds times its rank. *)
Definition retry_trace (req : request) (first : nat) (k : nat) : list event :=
  flat_map (fun attempt => [Request req; Sleep ((attempt + 1) * 5)])
    (map Z.of_nat (seq first k)).

Definition is_request (ev : event) : bool :=
  match ev with Request _ => true | Sleep _ => false end.

(** The state of the loop that appends records: the identifiers seen are
    those of the records kept, they are truthy and hashable, and none
    equals an earlier one. *)
Definition dedup_inv (all_apps : list app_record) (seen_ids : list value)
  : Prop :=
  seen_ids = map appId all_apps
  /\ distinct_ids seen_ids = true
  /\ forallb truthy seen_ids = true
  /\ forallb hashable seen_ids = true.

Definition is_nan (v : value) : bool :=
  match v with VFloat S754_nan => true | _ => false end.

(** *** Pages on which the extractor returns *)

Definition metadata_ok (node : dict) : bool :=
  is_dict (get_or node "containerMetadata" (VDict [])).

(** A document handed to the normaliser: well shaped, with a hashable
    identifier. *)
Definition app_node_ok (node : dict) : bool :=
  well_shaped node && hashable (get node "id").

Definition inner_ok (app : value) : bool :=
  match app with
  | VDict a => if truthy (get a "id") then app_node_ok a else true
  | _ => true
  end.

Definition cluster_ok (cluster : value) : bool :=
  match cluster with
  | VDict c =>
      metadata_ok c
      && match py_iter (get_or c "subItem" (VList [])) with
         | Ok inner => forallb inner_ok inner
         | Raise _ => false
         end
  | _ => true
  end.

Definition doc_ok (doc : value) : bool :=
  match doc with
  | VDict d =>
      metadata_ok d
      && match py_iter (get_or d "subItem" (VList [])) with
         | Ok sub_items => forallb cluster_ok sub_items
         | Raise _ => false
         end
      && (if truthy (get d "id") && negb (truthy (get d "subItem"))
          then app_node_ok d else true)
  | _ => true
  end.

(** The response is iterable; the metadata of its documents and of their
    sub-items are dicts, the sub-items are iterable, and the nodes that
    are emitted are well shaped, with hashable identifiers. *)
Definition page_well_shaped (data : value) : bool :=
  match py_iter data with
  | Ok docs => forallb doc_ok docs
  | Raise _ => false
  end.

(** ** Clients and inputs for concrete runs *)

(** *** A scripted client

    The client state is the list of the answers still to give, one per
    request; when the script is used up the client fails. *)
Module Fake.

Definition client : Type := list response.

Definition api_search (c : client) (_ : request) : response * client :=
  match c with
  | [] => (Failed "connection closed", [])
  | r :: rest => (r, rest)
  end.

Definition api_setLocale (c : client) (_ : string) : result client := Ok c.

Definition str_upper (s : string) : string := s.

Definition login_anonymous (s : session client) : result (session client) :=
  Ok {| api := api s; _logged_in := true; effects := effects s |}.

Definition start (script : list response) : session client :=
  {| api := script; _logged_in := true; effects := [] |}.

Definition run (fuel : nat) (script : list response) (query : string)
    (n_hits : Z) : option (result (list app_record) * session client) :=
  search api_search api_setLocale str_upper login_anonymous fuel
    (start script) query n_hits "en" "us".

(** An app document with an identifier only. *)
Definition app_doc (id : string) : value := VDict [("id", VStr id)].

(** A page in the nesting of the mobile API: one document, one cluster,
    the apps below it, and the cursor in the document's metadata. *)
Definition page (ids : list string) (cursor : option string) : value :=
  VList
    [VDict
       ((match cursor with
         | Some url =>
             [("containerMetadata", VDict [("nextPageUrl", VStr url)])]
         | None => []
         end)
        ++ [("subItem", VList [VDict [("subItem", VList (map app_doc ids))]])])].

Definition ids_of (r : option (result (list app_record) * session client))
  : option (list value) :=
  match r with
  | Some (Ok l, _) => Some (map appId l)
  | _ => None
  end.

End Fake.

(** An outcome that [search] copes with: a document that is falsy, or
    on which the extractor returns, with hashable identifiers; or any
    failure that the handler deals with, whatever its text.  An exception
    that leaves the [try] statement is not one of them. *)
Definition good_response (r : response) : Prop :=
  match r with
  | Returned data => truthy data = true -> page_ok data = true
  | Failed _ => True
  | Escaped _ => False
  end.

(** An invariant [Inv] of the client under which every page it delivers
    is accepted. *)
Definition delivers_good_pages {client : Type}
    (api_search : client -> request -> response * client)
    (Inv : client -> Prop) : Prop :=
  forall c req resp c',
    Inv c -> api_search c req = (resp, c') ->
    Inv c' /\ good_response resp.

(** What a document makes the loop raise: the extractor raises on it,
    or the hashing of an identifier of one of its records does
    (lines 302-309). *)
Definition raised_by_page (n_hits : Z) (data : value) (e : exn) : Prop :=
  _extract_apps_from_response data = Raise e
  \/ exists apps next_page all_apps seen_ids,
       _extract_apps_from_response data = Ok (apps, next_page)
       /\ add_new apps n_hits all_apps seen_ids = Raise e.

(** The page has a cursor: the loop goes on after it. *)
Definition has_next_page (data : value) : bool :=
  match _extract_apps_from_response data with
  | Ok (_, next_page) => truthy next_page
  | Raise _ => false
  end.

(** The pages of the client run out: no request raises [rank], and a
    page that has a cursor lowers it. *)
Definition pages_run_out {client : Type}
    (api_search : client -> request -> response * client)
    (Inv : client -> Prop) (rank : client -> nat) : Prop :=
  forall c req resp c',
    Inv c -> api_search c req = (resp, c') ->
    (rank c' <= rank c)%nat
    /\ forall data, resp = Returned data -> has_next_page data = true ->
         (rank c' < rank c)%nat.

(** *** A client that never runs out of pages

    Every request returns the same page: one app and a cursor. *)
Module Looping.

Definition client : Type := unit.

Definition the_page : value := Fake.page ["com.a"] (Some "next").

Definition api_search (c : client) (_ : request) : response * client :=
  (Returned the_page, c).

Definition the_app : app_record :=
  {| appId := VStr "com.a"; title := VStr ""; score := VNone;
     developer := VNone; developerId := VNone; icon := VNone;
     installs := VNone; price := float_zero; currency := "USD";
     free := true; summary := VNone |}.

Definition start : session client :=
  {| api := tt; _logged_in := true; effects := [] |}.

Definition run (fuel : nat) (n_hits : Z)
  : option (result (list app_record) * session client) :=
  search api_search (fun c _ => Ok c) (fun s => s) (fun s => Ok s)
    fuel start "vpn" n_hits "en" "us".

End Looping.

(** A decoder for concrete runs of the credential cache: it knows the
    empty object only. *)
Definition toy_json_load (text : string) : result value :=
  if (text =? "{}")%string then Ok (VDict []) else Raise ValueError.

(** * The rest of the class: the builtin [int], the token cache and the logins *)

(** ** The builtin [int]

    [int(v)] on a JSON-like value.  For a str: white space is stripped at
    both ends, an optional sign follows, then decimal digits with single
    underscores between them, at most 4300 digits. *)

(** The white space that [int] strips: the ASCII white space of C and the
    Unicode spaces U+0085 and U+00A0. *)
Definition is_int_space (c : ascii) : bool :=
  let n := N_of_ascii c in
  (((9 <=? n) && (n <=? 13)) || (n =? 32) || (n =? 133) || (n =? 160))%N.

Fixpoint lstrip (s : string) : string :=
  match s with
  | EmptyString => EmptyString
  | String c r => if is_int_space c then lstrip r else s
  end.

Fixpoint rstrip (s : string) : string :=
  match s with
  | EmptyString => EmptyString
  | String c r =>
      match rstrip r with
      | EmptyString => if is_int_space c then EmptyString
                       else String c EmptyString
      | r' => String c r'
      end
  end.

(** The digits of a literal: the value read so far, the number of digits
    read, and whether the last character was a digit. *)
Fixpoint digits_value (acc : Z) (count : nat) (after_digit : bool)
    (s : string) : option (Z * nat) :=
  match s with
  | EmptyString => if after_digit then Some (acc, count) else None
  | String c r =>
      if is_decimal c then
        digits_value (10 * acc + Z.of_N (N_of_ascii c) - 48) (S count) true r
      else if Ascii.eqb c "_"%char then
        if after_digit then digits_value acc count false r else None
      else None
  end.

(** An optional sign in front of the digits. *)
Definition split_sign (t : string) : bool * string :=
  match t with
  | String "-"%char r => (true, r)
  | String "+"%char r => (false, r)
  | _ => (false, t)
  end.

Definition int_of_text (s : string) : result Z :=
  let '(negative, body) := split_sign (rstrip (lstrip s)) in
  match digits_value 0 0 false body with
  | None => Raise ValueError
  | Some (z, count) =>
      if (int_max_str_digits <? count)%nat then Raise ValueError
      else Ok (if negative then - z else z)
  end.

(** [int(f)] for a float: the integer part; NaN and the infinities are
    refused. *)
Definition int_of_float (f : float) : result Z :=
  match f with
  | S754_zero _ => Ok 0
  | S754_infinity _ => Raise OverflowError
  | S754_nan => Raise ValueError
  | S754_finite s m e =>
      let magnitude := if 0 <=? e then Z.pos m * 2 ^ e
                       else Z.pos m / 2 ^ (- e) in
      Ok (if s then - magnitude else magnitude)
  end.

Definition py_int (v : value) : result Z :=
  match v with
  | VInt z => Ok z
  | VBool b => Ok (int_of_bool b)
  | VFloat f => int_of_float f
  | VStr s => int_of_text s
  | _ => Raise TypeError
  end.

(** ** The token cache and the logins (lines 76-132 and 320-325) *)

(** The attributes of the protocol client that [_save_config] reads. *)
Record tokens : Type := {
  gsfId : value;
  authSubToken : value;
  deviceCheckinConsistencyToken : value;
  deviceConfigToken : value;
  dfeCookie : value
}.

(** Lines 79-85: the dict that is written to the file. *)
Definition config_of (t : tokens) : value :=
  VDict [("gsfId", gsfId t);
         ("authSubToken", authSubToken t);
         ("deviceCheckinConsistencyToken", deviceCheckinConsistencyToken t);
         ("deviceConfigToken", deviceConfigToken t);
         ("dfeCookie", dfeCookie t)].

(** The three ways in which the code calls [self.api.login]. *)
Inductive login_request : Type :=
| LoginCached (gsfId : Z)
    (authSubToken deviceCheckinConsistencyToken deviceConfigToken
       dfeCookie : value)
| LoginAnonymous
| LoginPassword (email password : string).

Section Login.

(** The protocol client and the file system are two state machines; an
    operation that raises may still have changed the state.  The values of
    the model are all serialisable, so [json.dump] itself does not fail:
    what can fail is the writing, which is one step of the file system. *)
Variable client : Type.
Variable fs : Type.
Variable api_login : client -> login_request -> result unit * client.
Variable api_tokens : client -> tokens.
Variable api_details : client -> string -> result value * client.
Variable fs_view : fs -> config_file.
Variable fs_makedirs : fs -> result unit * fs.
Variable fs_write_text : fs -> string -> result unit * fs.
Variable json_load : string -> result value.
Variable json_dump : value -> string.

Definition set_api (c : client) (s : session client) : session client :=
  {| api := c; _logged_in := _logged_in s; effects := effects s |}.

Definition set_logged_in (s : session client) : session client :=
  {| api := api s; _logged_in := true; effects := effects s |}.

(** Lines 76-87. *)
Definition _save_config (s : session client) (w : fs) : result unit * fs :=
  let '(made, w) := fs_makedirs w in
  match made with
  | Raise e => (Raise e, w)
  | Ok _ => fs_write_text w (json_dump (config_of (api_tokens (api s))))
  end.

(** Lines 118-121 and 129-132: a login of the client, the save of its
    tokens, and the flag. *)
Definition login_and_save (req : login_request) (s : session client) (w : fs)
  : result bool * session client * fs :=
  let '(answer, c) := api_login (api s) req in
  let s := set_api c s in
  match answer with
  | Raise e => (Raise e, s, w)
  | Ok _ =>
      let '(saved, w) := _save_config s w in
      match saved with
      | Raise e => (Raise e, s, w)
      | Ok _ => (Ok true, set_logged_in s, w)
      end
  end.

(** Lines 104-111: the arguments of the login with cached tokens; the
    keys read by subscript are present, their values being truthy. *)
Definition cached_request (config : dict) : result login_request :=
  do g <~ py_int (get config "gsfId");
  Ok (LoginCached g (get config "authSubToken")
        (get config "deviceCheckinConsistencyToken")
        (get config "deviceConfigToken")
        (get config "dfeCookie")).

(** Lines 89-121. *)
Definition login_anonymous (force_new : bool) (s : session client) (w : fs)
  : result bool * session client * fs :=
  if negb force_new then
    match _load_config json_load (fs_view w) with
    | Raise e => (Raise e, s, w)
    | Ok config =>
        if truthy config then
          match as_dict config with
          | Raise e => (Raise e, s, w)
          | Ok cfg =>
              if truthy (get cfg "gsfId") && truthy (get cfg "authSubToken")
              then
                match cached_request cfg with
                | Raise _ => login_and_save LoginAnonymous s w
                | Ok req =>
                    let '(answer, c) := api_login (api s) req in
                    let s := set_api c s in
                    match answer with
                    | Ok _ => (Ok true, set_logged_in s, w)
                    | Raise _ => login_and_save LoginAnonymous s w
                    end
                end
              else login_and_save LoginAnonymous s w
          end
        else login_and_save LoginAnonymous s w
    end
  else login_and_save LoginAnonymous s w.

(** Lines 123-132. *)
Definition login (email password : string) (s : session client) (w : fs)
  : result bool * session client * fs :=
  login_and_save (LoginPassword email password) s w.

(** Lines 320-325. *)
Definition details (package_name : string) (s : session client) (w : fs)
  : result value * session client * fs :=
  let '(ready, s, w) :=
    if _logged_in s then (Ok true, s, w) else login_anonymous false s w in
  match ready with
  | Raise e => (Raise e, s, w)
  | Ok _ =>
      let '(answer, c) := api_details (api s) package_name in
      (answer, set_api c s, w)
  end.

End Login.

Arguments set_api {client} c s.
Arguments set_logged_in {client} s.
Arguments _save_config {client fs} api_tokens fs_makedirs fs_write_text
  json_dump s w.
Arguments login_and_save {client fs} api_login api_tokens fs_makedirs
  fs_write_text json_dump req s w.
Arguments login_anonymous {client fs} api_login api_tokens fs_view
  fs_makedirs fs_write_text json_load json_dump force_new s w.
Arguments login {client fs} api_login api_tokens fs_makedirs fs_write_text
  json_dump email password s w.
Arguments details {client fs} api_login api_tokens api_details fs_view
  fs_makedirs fs_write_text json_load json_dump package_name s w.

(** A file system on which a file that was written is read back. *)
Definition reliable {fs : Type} (fs_view : fs -> config_file)
    (fs_makedirs : fs -> result unit * fs)
    (fs_write_text : fs -> string -> result unit * fs) : Prop :=
  forall w w1 w2 text,
    fs_makedirs w = (Ok tt, w1) ->
    fs_write_text w1 text = (Ok tt, w2) ->
    fs_view w2
    = {| path_exists := true; open_read := Ok text; close_file := Ok tt |}.

(** ** Further specification-level notions *)

(** [Subseq l1 l2]: [l1] is [l2] with some elements left out, the order
    being kept. *)
Inductive Subseq {A : Type} : list A -> list A -> Prop :=
| Subseq_nil : Subseq [] []
| Subseq_keep (x : A) (l1 l2 : list A) :
    Subseq l1 l2 -> Subseq (x :: l1) (x :: l2)
| Subseq_skip (x : A) (l1 l2 : list A) :
    Subseq l1 l2 -> Subseq l1 (x :: l2).

(** The character [c] occurs in [s]. *)
Fixpoint occurs (c : ascii) (s : string) : bool :=
  match s with
  | EmptyString => false
  | String c' r => Ascii.eqb c' c || occurs c r
  end.

(** The image is a dict whose type is not 4. *)
Definition not_an_icon (img : value) : bool :=
  match img with
  | VDict i => negb (py_eq (get i "imageType") (VInt 4))
  | _ => false
  end.

(** The keys that [_parse_app] reads. *)
Definition parsed_keys : list string :=
  ["id"; "docid"; "title"; "details"; "aggregateRating"; "image"; "offer";
   "descriptionHtml"; "descriptionShort"].

(** What the loop of [search] may send for the query [query]: the query
    itself, a truthy cursor, or a wait. *)
Definition about_query (query : string) (ev : event) : Prop :=
  match ev with
  | Request (ByQuery q) => q = query
  | Request (ByPage _) => False
  | Sleep _ => True
  end.

Definition about_cursor (ev : event) : Prop :=
  match ev with
  | Request (ByQuery _) => False
  | Request (ByPage cursor) => truthy cursor = true
  | Sleep _ => True
  end.

(** ** Further clients and files for concrete runs *)

(** A file system in memory: the state is the content of the file, if
    there is one. *)
Module Disk.

Definition fs : Type := option string.

Definition fs_view (w : fs) : config_file :=
  match w with
  | Some text =>
      {| path_exists := true; open_read := Ok text; close_file := Ok tt |}
  | None =>
      {| path_exists := false;
         open_read := Raise (ClientError "No such file or directory");
         close_file := Ok tt |}
  end.

Definition fs_makedirs (w : fs) : result unit * fs := (Ok tt, w).

Definition fs_write_text (_ : fs) (text : string) : result unit * fs :=
  (Ok tt, Some text).

End Disk.

(** A protocol client whose state is its tokens: it accepts the cached
    tokens with the identifier 42 and hands out new tokens otherwise. *)
Module Dispenser.

Definition client : Type := tokens.

Definition fresh : tokens :=
  {| gsfId := VInt 42; authSubToken := VStr "token";
     deviceCheckinConsistencyToken := VNone;
     deviceConfigToken := VNone; dfeCookie := VNone |}.

Definition blank : tokens :=
  {| gsfId := VNone; authSubToken := VNone;
     deviceCheckinConsistencyToken := VNone;
     deviceConfigToken := VNone; dfeCookie := VNone |}.

Definition api_login (c : client) (req : login_request)
  : result unit * client :=
  match req with
  | LoginCached g auth dcct dct cookie =>
      if g =? 42 then
        (Ok tt, {| gsfId := VInt g; authSubToken := auth;
                   deviceCheckinConsistencyToken := dcct;
                   deviceConfigToken := dct; dfeCookie := cookie |})
      else (Raise (ClientError "tokens expired"), c)
  | _ => (Ok tt, fresh)
  end.

Definition api_tokens (c : client) : tokens := c.

(** A codec that knows the texts of the runs below. *)
Definition json_dump (_ : value) : string := "{tokens}".

Definition json_load (text : string) : result value :=
  if (text =? "{tokens}")%string then Ok (config_of fresh)
  else if (text =? "[1]")%string then Ok (VList [VInt 1])
  else Raise ValueError.

Definition start : session client :=
  {| api := blank; _logged_in := false; effects := [] |}.

Definition login_anonymous (force_new : bool) (s : session client)
    (w : Disk.fs) : result bool * session client * Disk.fs :=
  login_anonymous api_login api_tokens Disk.fs_view Disk.fs_makedirs
    Disk.fs_write_text json_load json_dump force_new s w.

End Dispenser.

(** * Properties *)

(** ** The error monad *)

Lemma bind_ok {A B} (c : result A) (k : A -> result B) (b : B) :
  bind c k = Ok b -> exists a, c = Ok a /\ k a = Ok b.
Proof.
  destruct c as [a|e]; simpl; intros H; [eauto | discriminate].
Qed.

Lemma returns_bind {A B} (c : result A) (k : A -> result B) :
  returns (bind c k) =
  match c with Ok a => returns (k a) | Raise _ => false end.
Proof. destruct c; reflexivity. Qed.

Lemma returns_true {A} (c : result A) :
  returns c = true <-> exists a, c = Ok a.
Proof.
  destruct c; simpl; split; intros H; eauto; try discriminate.
  destruct H as [a H]; discriminate.
Qed.

(** ** The record normaliser *)

(** A record comes from the six blocks of the method, each of which
    returned. *)
Lemma parse_app_blocks (item : dict) (r : app_record) :
  _parse_app (VDict item) = Ok r ->
  exists details,
    parse_details item = Ok (details, developer r, installs r)
    /\ parse_score item = Ok (score r)
    /\ parse_icon item = Ok (icon r)
    /\ parse_offer item = Ok (price r, free r)
    /\ parse_summary item = Ok (summary r)
    /\ parse_developer_id details = Ok (developerId r)
    /\ appId r = py_or (py_or (get item "id") (get item "docid")) (VStr "")
    /\ currency r = "USD"%string.
Proof.
  unfold _parse_app; simpl; intros H.
  apply bind_ok in H as [[[details dev] inst] [Hd H]].
  apply bind_ok in H as [sc [Hs H]].
  apply bind_ok in H as [ic [Hi H]].
  apply bind_ok in H as [[pr fr] [Ho H]].
  apply bind_ok in H as [su [Hsu H]].
  apply bind_ok in H as [did [Hdid H]].
  injection H as <-; simpl.
  exists details; repeat split; assumption.
Qed.

Lemma parse_app_not_dict (v : value) :
  is_dict v = false -> _parse_app v = Raise AttributeError.
Proof. destruct v; simpl; intros H; try reflexivity; discriminate. Qed.

(** The offer block sets [free] to the outcome of [price == 0]. *)
Lemma parse_offer_free (item : dict) (p : float) (f : bool) :
  parse_offer item = Ok (p, f) -> f = float_eq_int p 0.
Proof.
  unfold parse_offer.
  destruct (truthy (get_or item "offer" (VList []))); intros H.
  - destruct (match get_or item "offer" (VList []) with
              | VList l => hd VNone l
              | _ => get_or item "offer" (VList [])
              end); try (injection H as <- <-; reflexivity).
    apply bind_ok in H as [m [_ H]].
    apply bind_ok in H as [q [_ H]].
    injection H as <- <-; reflexivity.
  - injection H as <- <-; reflexivity.
Qed.

Lemma parse_offer_first (item fo : dict) :
  first_offer_is item fo ->
  parse_offer item =
  (do micros <~ micros_number (get_or fo "micros" (VInt 0));
   do price <~ div_million micros;
   Ok (price, float_eq_int price 0)).
Proof.
  intros H; unfold parse_offer.
  destruct H as [[rest H] | [H Hne]].
  - assert (E : get_or item "offer" (VList []) = VList (VDict fo :: rest))
      by (unfold get_or; rewrite H; reflexivity).
    rewrite !E; reflexivity.
  - assert (E : get_or item "offer" (VList []) = VDict fo)
      by (unfold get_or; rewrite H; reflexivity).
    rewrite !E; destruct fo; [contradiction | reflexivity].
Qed.

Lemma not_isdigit_micros (s : string) :
  isdigit s = false -> micros_number (VStr s) = Ok (VInt 0).
Proof. simpl; intros ->; reflexivity. Qed.

Lemma float_eq_int_zero (p : float) :
  float_eq_int p 0 = true <-> float_is p 0 1.
Proof.
  unfold float_is, float_exact, float_eq_int.
  destruct p as [s | s | | s m e]; cbv beta iota zeta.
  - split; reflexivity.
  - split; [discriminate | contradiction].
  - split; [discriminate | contradiction].
  - assert (Hm : (if s then Z.neg m else Z.pos m) <> 0) by (destruct s; lia).
    destruct (0 <=? e) eqn:He.
    + apply Z.leb_le in He.
      assert (0 < 2 ^ e) by (apply Z.pow_pos_nonneg; lia).
      cbv iota; rewrite Z.eqb_eq; split; intros E; nia.
    + cbv iota; rewrite Z.eqb_eq; split; intros E; lia.
Qed.

(** *** When the normaliser returns *)

Arguments int_quotient : simpl never.

Lemma parse_score_returns (item : dict) :
  returns (parse_score item) = rating_ok item.
Proof.
  unfold parse_score, rating_ok.
  destruct (get_or item "aggregateRating" (VDict [])) as [| b | z | f | s | l | d];
    simpl; try reflexivity;
    match goal with |- context [if ?c then _ else _] => destruct c end;
    reflexivity.
Qed.

Lemma find_icon_returns (images : list value) :
  returns (find_icon images) = icons_ok images.
Proof.
  induction images as [| img rest IH]; simpl; [reflexivity |].
  destruct img; simpl; try reflexivity.
  destruct (py_eq (get d "imageType") (VInt 4)); simpl; [reflexivity | exact IH].
Qed.

Lemma parse_icon_returns (item : dict) :
  returns (parse_icon item) = images_ok item.
Proof.
  unfold parse_icon, images_ok.
  destruct (py_iter (get_or item "image" (VList []))) as [images | e]; simpl;
    [apply find_icon_returns | reflexivity].
Qed.

Lemma isdigit_nonempty (s : string) : isdigit s = true -> (s =? "")%string = false.
Proof.
  unfold isdigit; intros H; apply andb_prop in H as [H _].
  now apply negb_true_iff in H.
Qed.

Lemma micros_returns (micros : value) :
  returns (do m <~ micros_number micros;
           do p <~ div_million m;
           Ok (p, float_eq_int p 0)) = micros_ok micros.
Proof.
  assert (Hint : forall z,
             returns (do p <~ int_true_div z 1000000; Ok (p, float_eq_int p 0))
             = negb (is_infinite (int_quotient z 1000000))).
  { intros z; unfold int_true_div.
    destruct (is_infinite (int_quotient z 1000000)); reflexivity. }
  destruct micros as [| b | z | f | s | l | d]; simpl; try reflexivity.
  - destruct b; vm_compute; reflexivity.
  - apply Hint.
  - destruct (isdigit s) eqn:Hd; simpl; [| vm_compute; reflexivity].
    unfold int_of_str. rewrite (isdigit_nonempty _ Hd); simpl.
    rewrite andb_true_r.
    destruct (all_chars is_decimal s); simpl; [| reflexivity].
    rewrite Nat.leb_antisym.
    destruct (int_max_str_digits <? String.length s)%nat; simpl;
      [reflexivity | apply Hint].
Qed.

Lemma parse_offer_returns (item : dict) :
  returns (parse_offer item) = offer_ok item.
Proof.
  unfold parse_offer, offer_ok.
  destruct (truthy (get_or item "offer" (VList []))); [| reflexivity].
  destruct (match get_or item "offer" (VList []) with
            | VList l => hd VNone l
            | _ => get_or item "offer" (VList [])
            end); try reflexivity.
  apply micros_returns.
Qed.

Lemma parse_summary_returns (item : dict) :
  returns (parse_summary item) = summary_ok item.
Proof.
  unfold parse_summary, summary_ok.
  destruct (has_key "descriptionHtml" item).
  - destruct (get item "descriptionHtml"); reflexivity.
  - destruct (has_key "descriptionShort" item); reflexivity.
Qed.

Lemma parse_details_returns (item : dict) :
  returns (do '(details, _, _) <~ parse_details item;
           parse_developer_id details) = details_ok item.
Proof.
  unfold parse_details, details_ok, parse_developer_id.
  destruct (get_or item "details" (VDict [])) as [| b | z | f | s | l | outer];
    simpl; try reflexivity.
  destruct (get_or outer "appDetails" (VDict [])) as [| b | z | f | s | l | d];
    simpl; try reflexivity;
    try (match goal with |- context [if ?c then _ else _] => destruct c end;
         reflexivity).
  assert (E : get_or d "developerEmail" (VStr "") = get d "developerEmail"
              \/ truthy (get d "developerEmail") = false).
  { unfold get, get_or; destruct (lookup "developerEmail" d); auto. }
  destruct d as [| kv d']; simpl.
  - reflexivity.
  - destruct E as [E | E].
    + rewrite E. destruct (truthy (get (kv :: d') "developerEmail")); simpl;
        [| reflexivity].
      destruct (get (kv :: d') "developerEmail"); reflexivity.
    + rewrite E; reflexivity.
Qed.

Lemma parse_app_returns (item : dict) :
  returns (_parse_app (VDict item)) = well_shaped item.
Proof.
  unfold well_shaped.
  rewrite <- parse_details_returns, <- parse_score_returns,
    <- parse_icon_returns, <- parse_offer_returns, <- parse_summary_returns.
  unfold _parse_app; simpl.
  destruct (parse_details item) as [[[details dev] inst] | e1]; simpl;
    [| reflexivity].
  destruct (parse_score item) as [sc | e2]; simpl;
    [| rewrite andb_false_r; reflexivity].
  destruct (parse_icon item) as [ic | e3]; simpl;
    [| rewrite !andb_false_r; reflexivity].
  destruct (parse_offer item) as [[pr fr] | e4]; simpl;
    [| rewrite !andb_false_r; reflexivity].
  destruct (parse_summary item) as [su | e5]; simpl;
    [| rewrite !andb_false_r; reflexivity].
  rewrite !andb_true_r.
  destruct (parse_developer_id details); reflexivity.
Qed.

Lemma absent_fields_well_shaped (item : dict) :
  lookup "details" item = None ->
  lookup "aggregateRating" item = None ->
  lookup "image" item = None ->
  lookup "offer" item = None ->
  lookup "descriptionHtml" item = None ->
  well_shaped item = true.
Proof.
  intros H1 H2 H3 H4 H5.
  unfold well_shaped, details_ok, rating_ok, images_ok, offer_ok, summary_ok,
    has_key, get_or.
  rewrite H1, H2, H3, H4, H5; reflexivity.
Qed.

(** A document with none of the optional fields gives a record with the
    identifier and the title only, and the defaults elsewhere. *)
Lemma parse_app_minimal (item : dict) :
  lookup "details" item = None ->
  lookup "aggregateRating" item = None ->
  lookup "image" item = None ->
  lookup "offer" item = None ->
  lookup "descriptionHtml" item = None ->
  lookup "descriptionShort" item = None ->
  _parse_app (VDict item)
  = Ok {| appId := py_or (py_or (get item "id") (get item "docid")) (VStr "");
          title := if has_key "title" item then get item "title" else VStr "";
          score := VNone; developer := VNone; developerId := VNone;
          icon := VNone; installs := VNone; price := float_zero;
          currency := "USD"; free := true; summary := VNone |}.
Proof.
  intros H1 H2 H3 H4 H5 H6.
  unfold _parse_app, parse_details, parse_score, parse_icon, parse_offer,
    parse_summary.
  unfold has_key, get_or. cbn [as_dict bind].
  rewrite H1, H2, H3, H4, H5, H6. reflexivity.
Qed.

(** *** The price

    What the offer block returns, whatever the rest of the document is. *)
Lemma parse_offer_cases (item : dict) :
  (forall fo, first_offer_is item fo ->
     lookup "micros" fo = Some (VInt 1500000)
     \/ lookup "micros" fo = Some (VFloat float_1500000)
     \/ lookup "micros" fo = Some (VStr "1500000") ->
     parse_offer item = Ok (S754_finite false 6755399441055744 (-52), false))
  /\ (forall fo, first_offer_is item fo ->
        lookup "micros" fo = Some (VInt 0)
        \/ lookup "micros" fo = Some (VFloat float_zero)
        \/ lookup "micros" fo = Some (VStr "0")
        \/ lookup "micros" fo = None
        \/ (exists s, lookup "micros" fo = Some (VStr s) /\ isdigit s = false) ->
        parse_offer item = Ok (float_zero, true))
  /\ (lookup "offer" item = None -> parse_offer item = Ok (float_zero, true))
  /\ (forall fo s, first_offer_is item fo ->
        lookup "micros" fo = Some (VStr s) ->
        isdigit s = true -> all_chars is_decimal s = false ->
        parse_offer item = Raise ValueError).
Proof.
  split; [| split; [| split]].
  - intros fo Hfo Hm. rewrite (parse_offer_first _ _ Hfo).
    unfold get_or; destruct Hm as [-> | [-> | ->]]; vm_compute; reflexivity.
  - intros fo Hfo Hm. rewrite (parse_offer_first _ _ Hfo).
    unfold get_or; destruct Hm as [-> | [-> | [-> | [-> | [s [-> Hs]]]]]].
    + vm_compute; reflexivity.
    + vm_compute; reflexivity.
    + vm_compute; reflexivity.
    + vm_compute; reflexivity.
    + rewrite (not_isdigit_micros _ Hs); vm_compute; reflexivity.
  - intros H; unfold parse_offer, get_or; rewrite H; reflexivity.
  - intros fo s Hfo Hm Hd Hdec. rewrite (parse_offer_first _ _ Hfo).
    unfold get_or; rewrite Hm. unfold micros_number, int_of_str.
    rewrite Hd, Hdec. reflexivity.
Qed.

(** When the other blocks return, the normaliser returns the price and
    the flag of the offer block, or raises what that block raises. *)
Lemma parse_app_offer (item : dict) :
  well_shaped_but_offer item = true ->
  match parse_offer item with
  | Ok (p, f) =>
      exists r, _parse_app (VDict item) = Ok r /\ price r = p /\ free r = f
  | Raise e => _parse_app (VDict item) = Raise e
  end.
Proof.
  unfold well_shaped_but_offer.
  rewrite <- parse_details_returns, <- parse_score_returns,
    <- parse_icon_returns, <- parse_summary_returns.
  unfold _parse_app; simpl.
  destruct (parse_details item) as [[[details dev] inst] | e1]; simpl;
    [| discriminate].
  destruct (parse_developer_id details) as [did | e6]; simpl;
    [| discriminate].
  destruct (parse_score item) as [sc | e2]; simpl; [| discriminate].
  destruct (parse_icon item) as [ic | e3]; simpl; [| discriminate].
  destruct (parse_summary item) as [su | e5]; simpl; [| discriminate].
  intros _. destruct (parse_offer item) as [[p f] | e]; simpl;
    [| reflexivity].
  eexists. repeat split.
Qed.

(** C5. Price derivation in [_parse_app], on a document whose other
    fields have the shape the code relies on.  Micros 1500000, as an
    integer, as a float or as a string of decimal digits, give a record
    with the price 3/2 and [free = false]; micros 0, absent micros, an
    absent offer and a micros string on which [isdigit] does not hold give
    a record with the price 0.0 and [free = true]; and in every record
    [free] holds exactly when the price is 0.  The guard of line 178 does
    not keep every malformed string from [int]: on a string of digit
    characters that are not all decimal, such as a superscript two,
    [isdigit] holds, [int] raises ValueError and so does the
    normaliser. *)
Theorem price_derivation (item : dict) :
  (well_shaped_but_offer item = true ->
   (forall fo, first_offer_is item fo ->
      lookup "micros" fo = Some (VInt 1500000)
      \/ lookup "micros" fo = Some (VFloat float_1500000)
      \/ lookup "micros" fo = Some (VStr "1500000") ->
      exists r, _parse_app (VDict item) = Ok r
                /\ float_is (price r) 3 2 /\ free r = false)
   /\ (forall fo, first_offer_is item fo ->
         lookup "micros" fo = Some (VInt 0)
         \/ lookup "micros" fo = Some (VFloat float_zero)
         \/ lookup "micros" fo = Some (VStr "0")
         \/ lookup "micros" fo = None
         \/ (exists s, lookup "micros" fo = Some (VStr s)
                       /\ isdigit s = false) ->
         exists r, _parse_app (VDict item) = Ok r
                   /\ price r = float_zero /\ free r = true)
   /\ (lookup "offer" item = None ->
       exists r, _parse_app (VDict item) = Ok r
                 /\ price r = float_zero /\ free r = true)
   /\ (forall fo s, first_offer_is item fo ->
         lookup "micros" fo = Some (VStr s) ->
         isdigit s = true -> all_chars is_decimal s = false ->
         _parse_app (VDict item) = Raise ValueError))
  /\ (forall r, _parse_app (VDict item) = Ok r ->
        (free r = true <-> float_is (price r) 0 1)).
Proof.
  destruct (parse_offer_cases item) as (C1 & C2 & C3 & C4).
  split.
  - intros Hshape. pose proof (parse_app_offer item Hshape) as Ho.
    split; [| split; [| split]].
    + intros fo Hfo Hm. rewrite (C1 fo Hfo Hm) in Ho.
      destruct Ho as (r & Hr & Hp & Hf). exists r.
      split; [exact Hr |]. rewrite Hp, Hf.
      split; [vm_compute |]; reflexivity.
    + intros fo Hfo Hm. rewrite (C2 fo Hfo Hm) in Ho.
      destruct Ho as (r & Hr & Hp & Hf). exists r. auto.
    + intros Hab. rewrite (C3 Hab) in Ho.
      destruct Ho as (r & Hr & Hp & Hf). exists r. auto.
    + intros fo s Hfo Hm Hd Hdec. rewrite (C4 fo s Hfo Hm Hd Hdec) in Ho.
      exact Ho.
  - intros r H.
    destruct (parse_app_blocks _ _ H) as [details (_ & _ & _ & Ho & _)].
    rewrite (parse_offer_free _ _ _ Ho). apply float_eq_int_zero.
Qed.

Lemma price_derivation_witness :
  let two := String (ascii_of_nat 178) EmptyString in
  let paid := [("id", VStr "com.example.paid");
               ("offer", VList [VDict [("micros", VFloat float_1500000)]])] in
  let unpriced := [("id", VStr "com.example.free");
                   ("offer", VList [VDict [("micros", VStr "n/a")]])] in
  let superscript := [("id", VStr "com.example.app");
                      ("offer", VList [VDict [("micros", VStr two)]])] in
  (exists r, _parse_app (VDict paid) = Ok r
             /\ float_is (price r) 3 2 /\ free r = false)
  /\ (exists r, _parse_app (VDict unpriced) = Ok r
                /\ price r = float_zero /\ free r = true)
  /\ _parse_app (VDict superscript) = Raise ValueError.
Proof.
  intros two paid unpriced superscript. split; [| split].
  - apply (proj1 (proj1 (price_derivation paid) eq_refl)
             [("micros", VFloat float_1500000)]).
    + left; exists []; reflexivity.
    + right; left; reflexivity.
  - apply (proj1 (proj2 (proj1 (price_derivation unpriced) eq_refl))
             [("micros", VStr "n/a")]).
    + left; exists []; reflexivity.
    + do 4 right. exists "n/a"%string. split; reflexivity.
  - apply (proj2 (proj2 (proj2 (proj1 (price_derivation superscript) eq_refl)))
             [("micros", VStr two)] two).
    + left; exists []; reflexivity.
    + reflexivity.
    + reflexivity.
    + reflexivity.
Defined.

(** C3, as stated, fails: a document whose "details" field is a string
    makes the normaliser raise. *)
Lemma parse_app_raises_on_unexpected_type :
  _parse_app (VDict [("id", VStr "com.example.app"); ("details", VStr "n/a")])
  = Raise AttributeError.
Proof. reflexivity. Qed.

(** C3, amended. The normaliser returns a record exactly on the documents
    whose optional fields are absent or of the shape the code relies on
    ([well_shaped]); a document without any of the optional fields is one
    of them. *)
Theorem parse_app_returns_iff_well_shaped (item : dict) :
  ((exists r, _parse_app (VDict item) = Ok r) <-> well_shaped item = true)
  /\ (lookup "details" item = None ->
      lookup "aggregateRating" item = None ->
      lookup "image" item = None ->
      lookup "offer" item = None ->
      lookup "descriptionHtml" item = None ->
      exists r, _parse_app (VDict item) = Ok r).
Proof.
  assert (E : (exists r, _parse_app (VDict item) = Ok r)
              <-> well_shaped item = true).
  { rewrite <- parse_app_returns. symmetry. apply returns_true. }
  split; [exact E |].
  intros H1 H2 H3 H4 H5. apply E.
  now apply absent_fields_well_shaped.
Qed.

Lemma parse_app_returns_iff_well_shaped_witness :
  exists r,
    _parse_app
      (VDict [("id", VStr "com.example.app"); ("title", VStr "Example");
              ("details",
               VDict [("appDetails",
                       VDict [("developerName", VStr "Example Ltd");
                              ("developerEmail", VStr "dev@example.com")])]);
              ("offer", VList [VDict [("micros", VStr "990000")]])])
    = Ok r.
Proof.
  apply (proj2 (proj1 (parse_app_returns_iff_well_shaped _))).
  vm_compute; reflexivity.
Defined.

(** ** The response extractor *)

Lemma last_cons {A} (l : list A) :
  forall x d, last (x :: l) d = last l x.
Proof.
  induction l as [| y l IH]; intros x d; [reflexivity |].
  change (last (x :: y :: l) d) with (last (y :: l) d).
  now rewrite !IH.
Qed.

Lemma last_append {A} (l1 l2 : list A) :
  forall d, last (l1 ++ l2) d = last l2 (last l1 d).
Proof.
  induction l1 as [| x l1 IH]; intros d; [reflexivity |].
  rewrite <- app_comm_cons, !last_cons. apply IH.
Qed.

Lemma parse_all_append (l1 l2 : list value) :
  parse_all (l1 ++ l2) =
  (do r1 <~ parse_all l1; do r2 <~ parse_all l2; Ok (r1 ++ r2)).
Proof.
  induction l1 as [| n l1 IH]; simpl.
  - destruct (parse_all l2); reflexivity.
  - destruct (_parse_app n) as [r | e]; simpl; [| reflexivity].
    rewrite IH.
    destruct (parse_all l1) as [r1 | e1]; simpl; [| reflexivity].
    destruct (parse_all l2); reflexivity.
Qed.

Lemma extends_refl (st : list app_record * value) : extends st st [] [].
Proof.
  split; [reflexivity |]. exists []; split; [reflexivity |].
  now rewrite app_nil_r.
Qed.

Lemma extends_trans (st1 st2 st3 : list app_record * value)
    (n1 n2 c1 c2 : list value) :
  extends st1 st2 n1 c1 -> extends st2 st3 n2 c2 ->
  extends st1 st3 (n1 ++ n2) (c1 ++ c2).
Proof.
  intros [Hc1 [r1 [Hp1 Ha1]]] [Hc2 [r2 [Hp2 Ha2]]].
  split.
  - rewrite last_append, <- Hc1. exact Hc2.
  - exists (r1 ++ r2). rewrite parse_all_append, Hp1, Hp2; simpl.
    split; [reflexivity |]. rewrite Ha2, Ha1. now rewrite app_assoc.
Qed.

Lemma for_each_extends {A} (body : A -> _ -> result (list app_record * value))
    (nodes cs : A -> list value) :
  (forall x st st', body x st = Ok st' -> extends st st' (nodes x) (cs x)) ->
  forall l st st', for_each body l st = Ok st' ->
    extends st st' (flat_map nodes l) (flat_map cs l).
Proof.
  intros Hbody l; induction l as [| x l IH]; simpl; intros st st' H.
  - injection H as <-. apply extends_refl.
  - apply bind_ok in H as [st1 [H1 H2]].
    eapply extends_trans; [apply Hbody; exact H1 | apply IH; exact H2].
Qed.

Lemma update_cursor_last (d : dict) (cur cur' : value) :
  update_cursor d cur = Ok cur' -> cur' = last (node_cursor (VDict d)) cur.
Proof.
  unfold update_cursor, node_cursor.
  destruct (get_or d "containerMetadata" (VDict [])); simpl;
    try discriminate.
  destruct (truthy (get d0 "nextPageUrl")); intros H; injection H as <-;
    reflexivity.
Qed.

Lemma for_each_visit_app (inner : list value) :
  forall apps apps', for_each visit_app inner apps = Ok apps' ->
  exists rs, parse_all (filter has_id inner) = Ok rs /\ apps' = apps ++ rs.
Proof.
  induction inner as [| n inner IH]; simpl; intros apps apps' H.
  - injection H as <-. exists []; now rewrite app_nil_r.
  - apply bind_ok in H as [apps1 [H1 H2]].
    destruct (IH _ _ H2) as [rs [Hp ->]].
    unfold visit_app in H1.
    destruct n as [| b | z | f | s | l | a]; simpl;
      try (injection H1 as <-; exists rs; now split).
    destruct (truthy (get a "id")).
    + apply bind_ok in H1 as [r [Hr H1]]. injection H1 as <-.
      exists (r :: rs). simpl parse_all. rewrite Hr, Hp; simpl.
      split; [reflexivity |]. now rewrite <- app_assoc.
    + injection H1 as <-. exists rs; now split.
Qed.

Lemma visit_cluster_extends (cluster : value) (st st' : list app_record * value) :
  visit_cluster cluster st = Ok st' ->
  extends st st' (filter has_id (children cluster)) (node_cursor cluster).
Proof.
  destruct st as [apps cur]. unfold visit_cluster.
  destruct cluster as [| b | z | f | s | l | c];
    try (intros H; injection H as <-; apply extends_refl).
  intros H.
  apply bind_ok in H as [cur1 [Hc H]].
  apply bind_ok in H as [inner [Hi H]].
  apply bind_ok in H as [apps1 [Ha H]].
  injection H as <-.
  apply update_cursor_last in Hc.
  destruct (for_each_visit_app _ _ _ Ha) as [rs [Hp ->]].
  unfold children. rewrite Hi.
  split; [exact Hc | exists rs; now split].
Qed.

Lemma visit_doc_extends (doc : value) (st st' : list app_record * value) :
  visit_doc doc st = Ok st' ->
  extends st st'
    (flat_map (fun cluster => filter has_id (children cluster)) (children doc)
     ++ (if has_id doc && negb (has_sub_items doc) then [doc] else []))
    (node_cursor doc ++ flat_map node_cursor (children doc)).
Proof.
  destruct st as [apps cur]. unfold visit_doc.
  destruct doc as [| b | z | f | s | l | d];
    try (intros H; injection H as <-; apply extends_refl).
  intros H.
  apply bind_ok in H as [cur1 [Hc H]].
  apply bind_ok in H as [subs [Hs H]].
  apply bind_ok in H as [[apps1 cur2] [Hf H]].
  apply update_cursor_last in Hc.
  apply (for_each_extends _ _ _ visit_cluster_extends) in Hf.
  assert (E1 : extends (apps, cur) (apps, cur1) [] (node_cursor (VDict d))).
  { split; [exact Hc |]. exists []; split; [reflexivity |].
    simpl; now rewrite app_nil_r. }
  pose proof (extends_trans _ _ _ _ _ _ _ E1 Hf) as E2. simpl app in E2 at 1.
  assert (Ech : children (VDict d) = subs)
    by (unfold children; now rewrite Hs).
  rewrite Ech.
  change (has_id (VDict d)) with (truthy (get d "id")).
  change (has_sub_items (VDict d)) with (truthy (get d "subItem")).
  destruct (truthy (get d "id") && negb (truthy (get d "subItem"))).
  - apply bind_ok in H as [r [Hr H]]. injection H as <-.
    rewrite <- (app_nil_r (node_cursor (VDict d) ++ flat_map node_cursor subs)).
    eapply extends_trans; [exact E2 |].
    split; [reflexivity |]. exists [r]. simpl parse_all. rewrite Hr.
    split; reflexivity.
  - injection H as <-.
    rewrite app_nil_r. exact E2.
Qed.

Lemma extract_extends (data : value) (st : list app_record * value) :
  _extract_apps_from_response data = Ok st ->
  exists docs, py_iter data = Ok docs
               /\ extends ([], VNone) st (emitted docs) (cursors docs).
Proof.
  unfold _extract_apps_from_response. intros H.
  apply bind_ok in H as [docs [Hd H]].
  exists docs; split; [exact Hd |].
  exact (for_each_extends _ _ _ visit_doc_extends _ _ _ H).
Qed.

Lemma cursors_outer_only (docs : list value) :
  (forall doc, In doc docs -> flat_map node_cursor (children doc) = []) ->
  cursors docs = flat_map node_cursor docs.
Proof.
  unfold cursors. induction docs as [| doc docs IH]; simpl; intros H;
    [reflexivity |].
  rewrite (H doc (or_introl eq_refl)), app_nil_r.
  f_equal. apply IH. intros d Hd. apply H. now right.
Qed.

(** *** Well-shaped pages *)

(** The identifier of a record is the "id" field of its document when
    that field is truthy. *)
Lemma parse_app_keeps_id (item : dict) (r : app_record) :
  _parse_app (VDict item) = Ok r ->
  truthy (get item "id") = true ->
  appId r = get item "id".
Proof.
  intros H Hid.
  destruct (parse_app_blocks _ _ H) as [details (_ & _ & _ & _ & _ & _ & E & _)].
  rewrite E. unfold py_or. now rewrite Hid, Hid.
Qed.

Lemma for_each_preserves {A S} (body : A -> S -> result S)
    (ok : A -> bool) (P : S -> Prop) :
  (forall x s, ok x = true -> P s -> exists s', body x s = Ok s' /\ P s') ->
  forall l s, forallb ok l = true -> P s ->
    exists s', for_each body l s = Ok s' /\ P s'.
Proof.
  intros Hbody l; induction l as [| x l IH]; simpl; intros s Hl Hs.
  - eauto.
  - apply andb_prop in Hl as [Hx Hl].
    destruct (Hbody x s Hx Hs) as [s1 [E1 Hs1]].
    rewrite E1; simpl. now apply IH.
Qed.

Lemma app_node_parses (node : dict) :
  app_node_ok node = true -> truthy (get node "id") = true ->
  exists r, _parse_app (VDict node) = Ok r /\ hashable (appId r) = true.
Proof.
  unfold app_node_ok. intros H Hid. apply andb_prop in H as [Hw Hh].
  rewrite <- parse_app_returns in Hw. apply returns_true in Hw as [r Hr].
  exists r. split; [exact Hr |].
  now rewrite (parse_app_keeps_id _ _ Hr Hid).
Qed.

Lemma hashable_snoc (apps : list app_record) (r : app_record) :
  forallb (fun a => hashable (appId a)) apps = true ->
  hashable (appId r) = true ->
  forallb (fun a => hashable (appId a)) (apps ++ [r]) = true.
Proof. intros Ha Hr. rewrite forallb_app, Ha. simpl. now rewrite Hr. Qed.

Lemma visit_app_ok (app : value) (apps : list app_record) :
  inner_ok app = true ->
  forallb (fun a => hashable (appId a)) apps = true ->
  exists apps', visit_app app apps = Ok apps'
                /\ forallb (fun a => hashable (appId a)) apps' = true.
Proof.
  intros Hok Ha. unfold visit_app.
  destruct app as [| b | z | f | s | l | a]; eauto.
  simpl in Hok. destruct (truthy (get a "id")) eqn:Hid; [| eauto].
  destruct (app_node_parses _ Hok Hid) as [r [Hr Hh]].
  rewrite Hr; simpl. eauto using hashable_snoc.
Qed.

Lemma update_cursor_ok (node : dict) (cur : value) :
  metadata_ok node = true -> exists cur', update_cursor node cur = Ok cur'.
Proof.
  unfold metadata_ok, update_cursor.
  destruct (get_or node "containerMetadata" (VDict [])); simpl;
    try discriminate.
  intros _. destruct (truthy (get d "nextPageUrl")); eauto.
Qed.

Lemma visit_cluster_ok (cluster : value) (st : list app_record * value) :
  cluster_ok cluster = true ->
  forallb (fun a => hashable (appId a)) (fst st) = true ->
  exists st', visit_cluster cluster st = Ok st'
              /\ forallb (fun a => hashable (appId a)) (fst st') = true.
Proof.
  destruct st as [apps cur]. intros Hok Ha. unfold visit_cluster.
  destruct cluster as [| b | z | f | s | l | c]; eauto.
  simpl in Hok. apply andb_prop in Hok as [Hm Hi].
  destruct (update_cursor_ok c cur Hm) as [cur' ->]; simpl.
  destruct (py_iter (get_or c "subItem" (VList []))) as [inner | e];
    [| discriminate]; simpl.
  destruct (for_each_preserves visit_app inner_ok _ visit_app_ok inner apps Hi Ha)
    as [apps' [-> Ha']]; simpl.
  eauto.
Qed.

Lemma visit_doc_ok (doc : value) (st : list app_record * value) :
  doc_ok doc = true ->
  forallb (fun a => hashable (appId a)) (fst st) = true ->
  exists st', visit_doc doc st = Ok st'
              /\ forallb (fun a => hashable (appId a)) (fst st') = true.
Proof.
  destruct st as [apps cur]. intros Hok Ha. unfold visit_doc.
  destruct doc as [| b | z | f | s | l | d]; eauto.
  simpl in Hok. apply andb_prop in Hok as [Hok Hd].
  apply andb_prop in Hok as [Hm Hs].
  destruct (update_cursor_ok d cur Hm) as [cur' ->]; simpl.
  destruct (py_iter (get_or d "subItem" (VList []))) as [subs | e];
    [| discriminate]; simpl.
  destruct (for_each_preserves visit_cluster cluster_ok _ visit_cluster_ok
              subs (apps, cur') Hs Ha) as [[apps1 cur1] [-> Ha1]]; simpl.
  destruct (truthy (get d "id") && negb (truthy (get d "subItem"))) eqn:E;
    [| eauto].
  apply andb_prop in E as [Hid _].
  destruct (app_node_parses _ Hd Hid) as [r [Hr Hh]].
  rewrite Hr; simpl. eauto using hashable_snoc.
Qed.

(** C6, as stated, fails.  A cursor in the metadata of a third-level node
    is not looked at: below, the last cursor of the response in document
    order is that of the app, and the extractor returns the one of the
    document.  And the extractor does not return on every response: on a
    response without any cursor whose document is malformed it raises. *)
Lemma extractor_ignores_third_level_cursor :
  let inner :=
    VDict [("id", VStr "com.a");
           ("containerMetadata", VDict [("nextPageUrl", VStr "inner3")])] in
  let docs :=
    [VDict [("containerMetadata", VDict [("nextPageUrl", VStr "outer")]);
            ("subItem", VList [VDict [("subItem", VList [inner])]])]] in
  let malformed :=
    [VDict [("id", VStr "com.example.app"); ("details", VStr "n/a")]] in
  (last (cursors_at_any_level docs) VNone = VStr "inner3"
   /\ exists apps,
        _extract_apps_from_response (VList docs) = Ok (apps, VStr "outer"))
  /\ (cursors_at_any_level malformed = []
      /\ _extract_apps_from_response (VList malformed)
         = Raise AttributeError).
Proof.
  repeat split. eexists. reflexivity.
Qed.

(** On a well-shaped page the extractor returns, and the identifiers of
    its records are hashable. *)
Lemma page_well_shaped_ok (data : value) :
  page_well_shaped data = true -> page_ok data = true.
Proof.
  unfold page_well_shaped, page_ok, _extract_apps_from_response.
  destruct (py_iter data) as [docs | e]; [| discriminate]; simpl.
  intros Hd.
  destruct (for_each_preserves visit_doc doc_ok _ visit_doc_ok docs
              ([], VNone) Hd eq_refl) as [[apps cur] [-> Ha]].
  exact Ha.
Qed.

(** C6, amended. On every well-shaped response the extractor returns,
    and the cursor it returns is the last truthy cursor that the walk
    looks at: those of the documents and of their sub-items, in document
    order, the third level being left out.  Whenever the extractor
    returns, its cursor is that one: none when the two levels have no
    cursor, the last one when cursors are found at several places, and
    the last outer one when no sub-item carries a cursor. *)
Theorem extractor_cursor_is_last_seen (data : value) :
  (page_well_shaped data = true ->
   exists docs apps,
     py_iter data = Ok docs
     /\ _extract_apps_from_response data
        = Ok (apps, last (cursors docs) VNone))
  /\ (forall apps cur,
        _extract_apps_from_response data = Ok (apps, cur) ->
        exists docs,
          py_iter data = Ok docs
          /\ cur = last (cursors docs) VNone
          /\ (cursors docs = [] -> cur = VNone)
          /\ (forall earlier c, cursors docs = earlier ++ [c] -> cur = c)
          /\ ((forall doc, In doc docs ->
                 flat_map node_cursor (children doc) = []) ->
              cur = last (flat_map node_cursor docs) VNone)).
Proof.
  assert (Hlast : forall apps cur,
             _extract_apps_from_response data = Ok (apps, cur) ->
             exists docs, py_iter data = Ok docs
                          /\ cur = last (cursors docs) VNone).
  { intros apps cur H.
    destruct (extract_extends _ _ H) as [docs [Hd [Hc _]]].
    exists docs. split; [exact Hd | exact Hc]. }
  split.
  - intros Hshape. apply page_well_shaped_ok in Hshape.
    unfold page_ok in Hshape.
    destruct (_extract_apps_from_response data) as [[apps cur] | e] eqn:E;
      [| discriminate].
    destruct (Hlast _ _ eq_refl) as [docs [Hd ->]].
    exists docs, apps. split; [exact Hd | reflexivity].
  - intros apps cur H. destruct (Hlast _ _ H) as [docs [Hd Hc]].
    exists docs. split; [exact Hd |]. split; [exact Hc |].
    split; [| split].
    + intros E. now rewrite Hc, E.
    + intros earlier c E. rewrite Hc, E, last_append. reflexivity.
    + intros Hin. now rewrite Hc, (cursors_outer_only _ Hin).
Qed.

Lemma extractor_cursor_is_last_seen_witness :
  exists apps,
    _extract_apps_from_response (Fake.page ["com.a"; "com.b"] (Some "page2"))
    = Ok (apps, VStr "page2").
Proof.
  destruct (proj1 (extractor_cursor_is_last_seen
                     (Fake.page ["com.a"; "com.b"] (Some "page2")))
              eq_refl) as (docs & apps & Hd & He).
  exists apps. rewrite He.
  vm_compute in Hd. injection Hd as <-. reflexivity.
Defined.

Lemma emitted_spec (docs : list value) (n : value) :
  In n (emitted docs) <->
  (In n docs /\ has_id n = true /\ has_sub_items n = false)
  \/ (exists doc cluster, In doc docs /\ In cluster (children doc)
                          /\ In n (children cluster) /\ has_id n = true).
Proof.
  unfold emitted. rewrite in_flat_map. split.
  - intros [doc [Hdoc Hn]]. apply in_app_or in Hn as [Hn | Hn].
    + right. apply in_flat_map in Hn as [cluster [Hc Hn]].
      apply filter_In in Hn as [Hn Hid].
      exists doc, cluster; auto.
    + left. destruct (has_id doc && negb (has_sub_items doc)) eqn:E;
        [| contradiction].
      destruct Hn as [<- | []].
      apply andb_prop in E as [E1 E2]. apply negb_true_iff in E2. auto.
  - intros [(Hn & Hid & Hsub) | (doc & cluster & Hdoc & Hc & Hn & Hid)].
    + exists n. split; [exact Hn |]. apply in_or_app; right.
      rewrite Hid, Hsub. now left.
    + exists doc. split; [exact Hdoc |]. apply in_or_app; left.
      apply in_flat_map. exists cluster. split; [exact Hc |].
      apply filter_In; auto.
Qed.

(** C7, as stated, fails at levels 2 and 3: a second-level node with an
    identifier and no sub-items is not emitted, and a third-level node
    with an identifier is emitted although it has sub-items. *)
Lemma extractor_levels_differ :
  let cluster := VDict [("id", VStr "com.example.two")] in
  let inner := VDict [("id", VStr "com.example.three");
                      ("subItem", VList [VDict [("id", VStr "com.example.four")]])] in
  (has_id cluster = true /\ has_sub_items cluster = false
   /\ _extract_apps_from_response (VList [VDict [("subItem", VList [cluster])]])
      = Ok ([], VNone))
  /\ (has_id inner = true /\ has_sub_items inner = true
      /\ exists r, appId r = VStr "com.example.three"
           /\ _extract_apps_from_response
                (VList [VDict [("subItem", VList [VDict [("subItem", VList [inner])]])]])
              = Ok ([r], VNone)).
Proof.
  repeat split. eexists; split; [| reflexivity]. reflexivity.
Qed.

(** C7, amended. The records returned by the extractor are the
    normalised nodes of [emitted], in that order: a top-level node is
    emitted exactly when it has an identifier and no sub-items, a
    third-level node exactly when it has an identifier, and a second-level
    node never. *)
Theorem extractor_emits (data : value) (apps : list app_record) (cur : value) :
  _extract_apps_from_response data = Ok (apps, cur) ->
  exists docs,
    py_iter data = Ok docs
    /\ parse_all (emitted docs) = Ok apps
    /\ forall n, In n (emitted docs) <->
         (In n docs /\ has_id n = true /\ has_sub_items n = false)
         \/ (exists doc cluster, In doc docs /\ In cluster (children doc)
                                 /\ In n (children cluster)
                                 /\ has_id n = true).
Proof.
  intros H. destruct (extract_extends _ _ H) as [docs [Hd [_ [rs [Hp Ha]]]]].
  simpl in Ha. subst rs.
  exists docs. split; [exact Hd |]. split; [exact Hp |].
  apply emitted_spec.
Qed.

Lemma extractor_emits_witness :
  exists docs,
    py_iter (VList [Fake.app_doc "com.direct";
                    VDict [("subItem",
                            VList [VDict [("id", VStr "com.cluster");
                                          ("subItem", VList [Fake.app_doc "com.inner"])]])]])
    = Ok docs
    /\ map appId_of_node (emitted docs) = [VStr "com.direct"; VStr "com.inner"].
Proof.
  destruct (_extract_apps_from_response
              (VList [Fake.app_doc "com.direct";
                      VDict [("subItem",
                              VList [VDict [("id", VStr "com.cluster");
                                            ("subItem", VList [Fake.app_doc "com.inner"])]])]]))
    as [[apps cur] | e] eqn:E; [| vm_compute in E; discriminate].
  destruct (extractor_emits _ _ _ E) as [docs (Hd & _ & _)].
  exists docs. split; [exact Hd |].
  vm_compute in Hd. injection Hd as <-. reflexivity.
Defined.

(** ** Equality of identifiers *)

Lemma SFeqb_sym (a b : float) : SFeqb a b = SFeqb b a.
Proof.
  unfold SFeqb, SFcompare.
  destruct a as [sa | sa | | sa ma ea], b as [sb | sb | | sb mb eb];
    try reflexivity;
    try (destruct sa; reflexivity); try (destruct sb; reflexivity);
    try (destruct sa, sb; reflexivity).
  rewrite (Z.compare_antisym ea eb), !Pos.compare_cont_spec.
  rewrite (Pos.compare_antisym ma mb).
  destruct sa, sb; try reflexivity;
    destruct (ea ?= eb); simpl; try reflexivity;
    destruct (ma ?= mb)%positive; reflexivity.
Qed.

Lemma SFeqb_refl (a : float) : a <> S754_nan -> SFeqb a a = true.
Proof.
  unfold SFeqb, SFcompare.
  destruct a as [sa | sa | | sa ma ea]; intros H;
    try reflexivity; try (destruct sa; reflexivity); try congruence.
  rewrite Z.compare_refl, Pos.compare_cont_refl.
  destruct sa; reflexivity.
Qed.

Lemma py_eq_refl (x : value) :
  hashable x = true -> is_nan x = false -> py_eq x x = true.
Proof.
  destruct x; simpl; intros Hh Hn; try reflexivity; try discriminate.
  - apply Bool.eqb_reflx.
  - apply Z.eqb_refl.
  - apply SFeqb_refl. intros ->. discriminate.
  - apply String.eqb_refl.
Qed.

Lemma py_eq_sym (x y : value) : py_eq x y = py_eq y x.
Proof.
  destruct x, y; simpl; try reflexivity;
    try apply Z.eqb_sym; try apply SFeqb_sym; try apply String.eqb_sym.
  destruct b, b0; reflexivity.
Qed.

Lemma distinct_ids_snoc (ids : list value) (x : value) :
  distinct_ids (ids ++ [x]) =
  distinct_ids ids && negb (existsb (py_eq x) ids).
Proof.
  induction ids as [| y ids IH]; simpl; [reflexivity |].
  rewrite existsb_app, IH; simpl.
  rewrite orb_false_r, !negb_orb.
  destruct (existsb (fun z => py_eq z y) ids), (py_eq x y),
    (distinct_ids ids), (existsb (py_eq x) ids); reflexivity.
Qed.

Lemma distinct_ids_firstn (k : nat) (ids : list value) :
  distinct_ids ids = true -> distinct_ids (firstn k ids) = true.
Proof.
  revert k; induction ids as [| x ids IH]; intros k H.
  - now rewrite firstn_nil.
  - destruct k as [| k]; [reflexivity |].
    simpl in *. apply andb_prop in H as [H1 H2].
    rewrite (IH k H2), andb_true_r.
    apply negb_true_iff in H1. apply negb_true_iff.
    destruct (existsb (fun y => py_eq y x) (firstn k ids)) eqn:E;
      [| reflexivity].
    apply existsb_exists in E as [y [Hy Hxy]].
    rewrite <- H1. symmetry. apply existsb_exists.
    exists y. split; [| exact Hxy].
    rewrite <- (firstn_skipn k ids). apply in_or_app; now left.
Qed.

Lemma distinct_ids_nth (ids : list value) :
  distinct_ids ids = true ->
  forall i j x y, i <> j ->
    nth_error ids i = Some x -> nth_error ids j = Some y ->
    py_eq x y = false.
Proof.
  induction ids as [| z ids IH]; intros H i j x y Hij Hi Hj.
  - destruct i; discriminate.
  - simpl in H. apply andb_prop in H as [H1 H2].
    apply negb_true_iff in H1.
    assert (Hz : forall w, In w ids -> py_eq w z = false).
    { intros w Hw. destruct (py_eq w z) eqn:E; [| reflexivity].
      rewrite <- H1. symmetry. apply existsb_exists. eauto. }
    destruct i as [| i], j as [| j]; simpl in Hi, Hj.
    + contradiction.
    + injection Hi as <-. rewrite py_eq_sym. apply Hz.
      eapply nth_error_In; eassumption.
    + injection Hj as <-. apply Hz. eapply nth_error_In; eassumption.
    + apply (IH H2 i j); auto.
Qed.

(** ** The loop that appends the new records of a page *)

Lemma add_new_inv (n_hits : Z) (apps : list app_record) :
  forall all_apps seen_ids all_apps' seen_ids',
    add_new apps n_hits all_apps seen_ids = Ok (all_apps', seen_ids') ->
    dedup_inv all_apps seen_ids -> dedup_inv all_apps' seen_ids'.
Proof.
  induction apps as [| app rest IH]; simpl; intros all seen all' seen' H Inv.
  - injection H as <- <-. exact Inv.
  - destruct (truthy (appId app)) eqn:Ht; [| eapply IH; eassumption].
    apply bind_ok in H as [known [Hk H]].
    destruct known; [eapply IH; eassumption |].
    unfold set_mem in Hk.
    destruct (hashable (appId app)) eqn:Hh; [| discriminate].
    injection Hk as Hk.
    assert (Inv' : dedup_inv (all ++ [app]) (seen ++ [appId app])).
    { destruct Inv as (E & Hd & Hf & Hg). repeat split.
      - rewrite map_app, E. reflexivity.
      - rewrite distinct_ids_snoc, Hd, Hk. reflexivity.
      - rewrite forallb_app, Hf. simpl. now rewrite Ht.
      - rewrite forallb_app, Hg. simpl. now rewrite Hh. }
    destruct (n_hits <=? Z.of_nat (List.length (all ++ [app]))).
    + injection H as <- <-. exact Inv'.
    + eapply IH; eassumption.
Qed.

Lemma add_new_returns (n_hits : Z) (apps : list app_record) :
  forallb (fun r => hashable (appId r)) apps = true ->
  forall all_apps seen_ids,
    returns (add_new apps n_hits all_apps seen_ids) = true.
Proof.
  induction apps as [| app rest IH]; simpl; intros H all seen;
    [reflexivity |].
  apply andb_prop in H as [Hh H].
  destruct (truthy (appId app)); [| now apply IH].
  unfold set_mem. rewrite Hh. simpl.
  destruct (existsb (py_eq (appId app)) seen); [now apply IH |].
  destruct (n_hits <=? Z.of_nat (List.length (all ++ [app])));
    [reflexivity | now apply IH].
Qed.

(** ** The driver *)

Lemma list_slice_to_prefix {A} (n : Z) (l : list A) :
  exists k, list_slice_to n l = firstn k l.
Proof. unfold list_slice_to. destruct (0 <=? n); eauto. Qed.

Lemma list_slice_to_length {A} (n : Z) (l : list A) :
  0 <= n -> Z.of_nat (List.length (list_slice_to n l)) <= n.
Proof.
  intros Hn. unfold list_slice_to.
  destruct (0 <=? n) eqn:E; [| apply Z.leb_gt in E; lia].
  rewrite length_firstn. lia.
Qed.

Section DriverProperties.

Variable client : Type.
Variable api_search : client -> request -> response * client.
Variable api_setLocale : client -> string -> result client.
Variable str_upper : string -> string.
Variable login_anonymous : session client -> result (session client).

Abbreviation retry := (request_with_retry api_search).
Abbreviation loop := (search_loop api_search).
Abbreviation search' :=
  (search api_search api_setLocale str_upper login_anonymous).

(** What [search] returns is a slice of what the loop returns. *)
Lemma search_inv (fuel : nat) (s s' : session client) (query : string)
    (n_hits : Z) (lang country : string) (l : list app_record) :
  search' fuel s query n_hits lang country = Some (Ok l, s') ->
  exists s0 all_apps,
    loop fuel query n_hits [] VNone [] s0 = Some (Ok all_apps, s')
    /\ l = list_slice_to n_hits all_apps.
Proof.
  unfold search. intros H.
  destruct (if _logged_in s then Ok s else login_anonymous s) as [s1 | e];
    [| discriminate].
  destruct (api_setLocale (api s1) _) as [c | e]; [| discriminate].
  match type of H with
  | match loop _ _ _ _ _ _ ?s0 with _ => _ end = _ =>
      destruct (loop fuel query n_hits [] VNone [] s0)
        as [[[all | e] s2] |] eqn:E; try discriminate;
      exists s0, all
  end.
  injection H as <- <-. split; [exact E | reflexivity].
Qed.

Lemma search_loop_inv (fuel : nat) (query : string) (n_hits : Z) :
  forall all_apps next_page seen_ids s l s',
    loop fuel query n_hits all_apps next_page seen_ids s = Some (Ok l, s') ->
    dedup_inv all_apps seen_ids ->
    exists seen', dedup_inv l seen'.
Proof.
  induction fuel as [| fuel IH]; intros all np seen s l s' H Inv;
    cbn [search_loop] in H; [discriminate |].
  destruct (Z.of_nat (List.length all) <? n_hits);
    [| injection H as <- <-; eauto].
  destruct (retry (range max_retries) (page_request query np) s)
    as [[data | e] s1]; [| discriminate].
  destruct (is_none data); [injection H as <- <-; eauto |].
  destruct (negb (truthy data)); [injection H as <- <-; eauto |].
  destruct (_extract_apps_from_response data) as [[apps np'] | e];
    [| discriminate].
  destruct (add_new apps n_hits all seen) as [[all' seen'] | e] eqn:Ea;
    [| discriminate].
  pose proof (add_new_inv _ _ _ _ _ _ Ea Inv) as Inv'.
  destruct (negb (truthy np')); [injection H as <- <-; eauto |].
  eapply IH; eassumption.
Qed.

Lemma search_loop_no_hits (fuel : nat) (query : string) (n_hits : Z)
    (next_page : value) (seen_ids : list value) (s s' : session client)
    (l : list app_record) :
  n_hits <= 0 ->
  loop fuel query n_hits [] next_page seen_ids s = Some (Ok l, s') ->
  l = [].
Proof.
  intros Hn H. destruct fuel as [| fuel]; cbn [search_loop] in H;
    [discriminate |].
  change (Z.of_nat (@List.length app_record [])) with 0 in H.
  destruct (0 <? n_hits) eqn:E; [apply Z.ltb_lt in E; lia |].
  now injection H as <- <-.
Qed.

Lemma dedup_inv_nil : dedup_inv [] [].
Proof. repeat split. Qed.

Lemma search_result_inv (fuel : nat) (s s' : session client)
    (query : string) (n_hits : Z) (lang country : string)
    (l : list app_record) :
  search' fuel s query n_hits lang country = Some (Ok l, s') ->
  distinct_ids (map appId l) = true
  /\ forallb truthy (map appId l) = true
  /\ forallb hashable (map appId l) = true.
Proof.
  intros H. destruct (search_inv _ _ _ _ _ _ _ _ H) as (s0 & all & Hl & ->).
  destruct (search_loop_inv _ _ _ _ _ _ _ _ _ Hl dedup_inv_nil)
    as (seen & -> & Hd & Ht & Hh).
  destruct (list_slice_to_prefix n_hits all) as [k ->].
  rewrite <- firstn_map.
  assert (Hin : forall x, In x (firstn k (map appId all)) ->
                          In x (map appId all)).
  { intros x Hx. rewrite <- (firstn_skipn k (map appId all)).
    apply in_or_app; now left. }
  split; [| split].
  - now apply distinct_ids_firstn.
  - rewrite forallb_forall in *. intros x Hx. apply Ht, Hin, Hx.
  - rewrite forallb_forall in *. intros x Hx. apply Hh, Hin, Hx.
Qed.

(** C1, amended. The list returned by [search] has at most
    [max(n_hits, 0)] elements: at most [n_hits] when [n_hits] is not
    negative, and none when it is. *)
Theorem search_length_bounded (fuel : nat) (s s' : session client)
    (query : string) (n_hits : Z) (lang country : string)
    (l : list app_record) :
  search' fuel s query n_hits lang country = Some (Ok l, s') ->
  Z.of_nat (List.length l) <= Z.max 0 n_hits
  /\ (0 <= n_hits -> Z.of_nat (List.length l) <= n_hits)
  /\ (n_hits < 0 -> l = []).
Proof.
  intros H. destruct (search_inv _ _ _ _ _ _ _ _ H) as (s0 & all & Hl & ->).
  assert (Hneg : n_hits <= 0 -> list_slice_to n_hits all = []).
  { intros Hn. rewrite (search_loop_no_hits _ _ _ _ _ _ _ _ Hn Hl).
    unfold list_slice_to. destruct (0 <=? n_hits); now rewrite firstn_nil. }
  assert (Hpos : 0 <= n_hits ->
                 Z.of_nat (List.length (list_slice_to n_hits all)) <= n_hits)
    by apply list_slice_to_length.
  split; [| split].
  - destruct (Z.le_gt_cases 0 n_hits) as [Hn | Hn].
    + rewrite Z.max_r by lia. now apply Hpos.
    + rewrite Hneg by lia. simpl. lia.
  - exact Hpos.
  - intros Hn. apply Hneg. lia.
Qed.

(** C2. No two records of the list returned by [search] have the same
    identifier: the identifiers of two records at different positions
    are not equal for Python's [==], and they are different values
    (unless both are the float NaN, which [==] tells from itself). *)
Theorem search_ids_distinct (fuel : nat) (s s' : session client)
    (query : string) (n_hits : Z) (lang country : string)
    (l : list app_record) :
  search' fuel s query n_hits lang country = Some (Ok l, s') ->
  forall i j a b, i <> j ->
    nth_error l i = Some a -> nth_error l j = Some b ->
    py_eq (appId a) (appId b) = false
    /\ (is_nan (appId a) = false -> appId a <> appId b).
Proof.
  intros H i j a b Hij Ha Hb.
  destruct (search_result_inv _ _ _ _ _ _ _ _ H) as (Hd & _ & Hh).
  assert (E : py_eq (appId a) (appId b) = false).
  { apply (distinct_ids_nth _ Hd i j); [exact Hij | |];
      rewrite nth_error_map; [rewrite Ha | rewrite Hb]; reflexivity. }
  split; [exact E |].
  intros Hnan Heq. rewrite <- Heq in E.
  rewrite forallb_forall in Hh.
  rewrite py_eq_refl in E; [discriminate | | exact Hnan].
  apply Hh, in_map. eapply nth_error_In; eassumption.
Qed.

(** C10, amended. Every record of the list returned by [search] has a
    truthy identifier; an identifier that is a string is not empty. *)
Theorem search_ids_truthy (fuel : nat) (s s' : session client)
    (query : string) (n_hits : Z) (lang country : string)
    (l : list app_record) :
  search' fuel s query n_hits lang country = Some (Ok l, s') ->
  forall a, In a l ->
    truthy (appId a) = true
    /\ forall str, appId a = VStr str -> str <> ""%string.
Proof.
  intros H a Ha.
  destruct (search_result_inv _ _ _ _ _ _ _ _ H) as (_ & Ht & _).
  rewrite forallb_forall in Ht.
  assert (T : truthy (appId a) = true) by (apply Ht; now apply in_map).
  split; [exact T |].
  intros str E ->. rewrite E in T. discriminate.
Qed.

End DriverProperties.

(** More fuel does not change what the loop returns. *)
Lemma search_loop_fuel_mono {client : Type}
    (api_search : client -> request -> response * client)
    (fuel : nat) (query : string) (n_hits : Z) :
  forall all_apps next_page seen_ids s out,
    search_loop api_search fuel query n_hits all_apps next_page seen_ids s
    = Some out ->
    search_loop api_search (S fuel) query n_hits all_apps next_page seen_ids s
    = Some out.
Proof.
  induction fuel as [| fuel IH]; intros all np seen s out H;
    [discriminate |].
  cbn [search_loop] in H. cbn [search_loop].
  destruct (Z.of_nat (List.length all) <? n_hits); [| trivial].
  destruct (request_with_retry api_search (range max_retries)
              (page_request query np) s) as [[data | e] s1]; [| trivial].
  destruct (is_none data); [trivial |].
  destruct (negb (truthy data)); [trivial |].
  destruct (_extract_apps_from_response data) as [[apps np'] | e];
    [| trivial].
  destruct (add_new apps n_hits all seen) as [[all' seen'] | e]; [| trivial].
  destruct (negb (truthy np')); [trivial |].
  apply IH in H. exact H.
Qed.

Lemma search_loop_fuel_le {client : Type}
    (api_search : client -> request -> response * client)
    (fuel fuel' : nat) (query : string) (n_hits : Z)
    (all_apps : list app_record) (next_page : value)
    (seen_ids : list value) (s : session client)
    (out : result (list app_record) * session client) :
  (fuel <= fuel')%nat ->
  search_loop api_search fuel query n_hits all_apps next_page seen_ids s
  = Some out ->
  search_loop api_search fuel' query n_hits all_apps next_page seen_ids s
  = Some out.
Proof.
  intros Hle H. induction Hle as [| fuel' Hle IH]; [exact H |].
  now apply search_loop_fuel_mono.
Qed.

Section FailureHandling.

Variable client : Type.
Variable api_search : client -> request -> response * client.
Variable api_setLocale : client -> string -> result client.
Variable str_upper : string -> string.
Variable login_anonymous : session client -> result (session client).

Abbreviation retry := (request_with_retry api_search).
Abbreviation loop := (search_loop api_search).
Abbreviation search' :=
  (search api_search api_setLocale str_upper login_anonymous).

Lemma retry_rate_limited (attempt : Z) (rest : list Z) (req : request)
    (s : session client) (msg : string) (c : client) :
  api_search (api s) req = (Failed msg, c) ->
  str_contains "429" msg = true ->
  retry (attempt :: rest) req s =
  retry rest req
    (record_event (Sleep ((attempt + 1) * 5)) c
       (record_event (Request req) c s)).
Proof. intros H1 H2. simpl. rewrite H1, H2. reflexivity. Qed.

Lemma retry_other_failure (attempt : Z) (rest : list Z) (req : request)
    (s : session client) (msg : string) (c : client) :
  api_search (api s) req = (Failed msg, c) ->
  str_contains "429" msg = false ->
  retry (attempt :: rest) req s = (Ok VNone, record_event (Request req) c s).
Proof. intros H1 H2. simpl. rewrite H1, H2. reflexivity. Qed.

Lemma retry_trace_step (req : request) (first k : nat) :
  retry_trace req first (S k) =
  [Request req; Sleep ((Z.of_nat first + 1) * 5)]
  ++ retry_trace req (S first) k.
Proof. reflexivity. Qed.

(** The events of a page request: some rate-limited attempts, each
    followed by its wait, and then either the attempt that ended the
    retries, or nothing when every attempt was rate-limited. *)
Lemma retry_events (n : nat) (req : request) :
  forall first s out s',
    retry (map Z.of_nat (seq first n)) req s = (out, s') ->
    exists k tail,
      (k <= n)%nat
      /\ effects s' = effects s ++ retry_trace req first k ++ tail
      /\ ((tail = [] /\ k = n /\ out = Ok VNone)
          \/ (tail = [Request req] /\ (k < n)%nat)).
Proof.
  induction n as [| n IH]; intros first s out s' H.
  - simpl in H. injection H as <- <-.
    exists 0%nat, []. simpl. rewrite app_nil_r.
    split; [lia |]. split; [reflexivity |]. left. repeat split.
  - simpl in H.
    destruct (api_search (api s) req) as [resp c].
    destruct resp as [d | msg | e].
    + injection H as <- <-. exists 0%nat, [Request req].
      simpl. split; [lia |]. split; [reflexivity |].
      right. split; [reflexivity | lia].
    + destruct (str_contains "429" msg).
      * apply IH in H as (k & tail & Hk & He & Ht).
        exists (S k), tail. split; [lia |]. split.
        -- rewrite He, retry_trace_step. simpl.
           rewrite <- !app_assoc. reflexivity.
        -- destruct Ht as [(-> & -> & ->) | (-> & Hlt)]; [left | right];
             repeat split; lia.
      * injection H as <- <-. exists 0%nat, [Request req].
        simpl. split; [lia |]. split; [reflexivity |].
        right. split; [reflexivity | lia].
    + injection H as <- <-. exists 0%nat, [Request req].
      simpl. split; [lia |]. split; [reflexivity |].
      right. split; [reflexivity | lia].
Qed.

Lemma loop_ends_without_data (fuel : nat) (query : string) (n_hits : Z)
    (all_apps : list app_record) (next_page : value)
    (seen_ids : list value) (s s1 : session client) :
  Z.of_nat (List.length all_apps) < n_hits ->
  retry (range max_retries) (page_request query next_page) s
  = (Ok VNone, s1) ->
  loop (S fuel) query n_hits all_apps next_page seen_ids s
  = Some (Ok all_apps, s1).
Proof.
  intros Hn Hr. cbn [search_loop]. apply Z.ltb_lt in Hn.
  rewrite Hn, Hr. reflexivity.
Qed.

(** C8. A failed request whose message contains "429" is followed by a
    wait of five seconds times the rank of the attempt and by the next
    attempt; a page is requested at most [max_retries] = 3 times; any
    other failure ends the attempts at once; and when the attempts gave
    no data the loop ends with the records accumulated so far. *)
Theorem retry_policy (req : request) (s : session client) :
  (forall attempt rest msg c,
      api_search (api s) req = (Failed msg, c) ->
      str_contains "429" msg = true ->
      retry (attempt :: rest) req s =
      retry rest req
        (record_event (Sleep ((attempt + 1) * 5)) c
           (record_event (Request req) c s)))
  /\ (forall attempt rest msg c,
         api_search (api s) req = (Failed msg, c) ->
         str_contains "429" msg = false ->
         retry (attempt :: rest) req s
         = (Ok VNone, record_event (Request req) c s))
  /\ (forall out s',
         retry (range max_retries) req s = (out, s') ->
         exists k tail,
           (k <= max_retries)%nat
           /\ effects s' = effects s ++ retry_trace req 0 k ++ tail
           /\ ((tail = [] /\ k = max_retries /\ out = Ok VNone)
               \/ (tail = [Request req] /\ (k < max_retries)%nat)))
  /\ (forall fuel query n_hits all_apps next_page seen_ids s1,
         req = page_request query next_page ->
         Z.of_nat (List.length all_apps) < n_hits ->
         retry (range max_retries) req s = (Ok VNone, s1) ->
         loop (S fuel) query n_hits all_apps next_page seen_ids s
         = Some (Ok all_apps, s1)).
Proof.
  split; [| split; [| split]].
  - intros attempt rest msg c H1 H2.
    exact (retry_rate_limited attempt rest req s msg c H1 H2).
  - intros attempt rest msg c H1 H2.
    exact (retry_other_failure attempt rest req s msg c H1 H2).
  - intros out s' H. now apply retry_events.
  - intros fuel query n_hits all np seen s1 -> Hn Hr.
    now apply loop_ends_without_data.
Qed.

(** *** Where an exception of [search] comes from *)

Lemma retry_outcome (attempts : list Z) (req : request) :
  forall s out s',
    retry attempts req s = (out, s') ->
    match out with
    | Ok data =>
        data = VNone \/ exists c c', api_search c req = (Returned data, c')
    | Raise e => exists c c', api_search c req = (Escaped e, c')
    end.
Proof.
  induction attempts as [| a rest IH]; simpl; intros s out s' H.
  - injection H as <- <-. now left.
  - destruct (api_search (api s) req) as [resp c] eqn:E.
    destruct resp as [d | msg | e].
    + injection H as <- <-. right. eauto.
    + destruct (str_contains "429" msg); [eapply IH; eassumption |].
      injection H as <- <-. now left.
    + injection H as <- <-. eauto.
Qed.

(** The loop raises what left a [try] statement, or what a document of
    the client makes the extractor or the hashing of an identifier
    raise. *)
Lemma search_loop_raises (fuel : nat) (query : string) (n_hits : Z) :
  forall all_apps next_page seen_ids s e s',
    loop fuel query n_hits all_apps next_page seen_ids s
    = Some (Raise e, s') ->
    (exists c req c', api_search c req = (Escaped e, c'))
    \/ (exists c req data c',
           api_search c req = (Returned data, c')
           /\ raised_by_page n_hits data e).
Proof.
  induction fuel as [| fuel IH]; intros all np seen s e s' H;
    cbn [search_loop] in H; [discriminate |].
  destruct (Z.of_nat (List.length all) <? n_hits); [| discriminate].
  destruct (retry (range max_retries) (page_request query np) s)
    as [out s1] eqn:Er.
  pose proof (retry_outcome _ _ _ _ _ Er) as Ho.
  destruct out as [data | e0].
  - destruct (is_none data) eqn:En; [discriminate |].
    destruct Ho as [-> | (c & c' & Hc)]; [discriminate |].
    destruct (negb (truthy data)); [discriminate |].
    destruct (_extract_apps_from_response data) as [[apps np'] | e1] eqn:Ex.
    + destruct (add_new apps n_hits all seen) as [[all' seen'] | e2] eqn:Ea.
      * destruct (negb (truthy np')); [discriminate |].
        eapply IH; eassumption.
      * injection H as <- <-. right.
        exists c, (page_request query np), data, c'.
        split; [exact Hc |]. right. exists apps, np', all, seen. auto.
    + injection H as <- <-. right.
      exists c, (page_request query np), data, c'.
      split; [exact Hc |]. now left.
  - injection H as <- <-. left.
    destruct Ho as (c & c' & Hc). eauto.
Qed.

(** *** When [search] returns a list

    [Inv] is an invariant of the client under which every outcome of a
    request is one that the driver copes with, and [rank] bounds the
    pages that the client still delivers with a cursor. *)
Variable Inv : client -> Prop.
Variable rank : client -> nat.

Lemma retry_good_page (attempts : list Z) (req : request) :
  delivers_good_pages api_search Inv ->
  forall s out s',
    Inv (api s) -> retry attempts req s = (out, s') ->
    Inv (api s')
    /\ exists data, out = Ok data
                    /\ (truthy data = true -> page_ok data = true).
Proof.
  intros Hstep.
  induction attempts as [| a rest IH]; simpl; intros s out s' Hs H.
  - injection H as <- <-. split; [exact Hs |].
    exists VNone. split; [reflexivity | discriminate].
  - destruct (api_search (api s) req) as [resp c] eqn:E.
    destruct (Hstep _ _ _ _ Hs E) as [Hc Hresp].
    destruct resp as [d | msg | e].
    + injection H as <- <-. split; [exact Hc |].
      exists d. split; [reflexivity | exact Hresp].
    + destruct (str_contains "429" msg).
      * eapply IH; [| eassumption]. exact Hc.
      * injection H as <- <-. split; [exact Hc |].
        exists VNone. split; [reflexivity | discriminate].
    + contradiction.
Qed.

Lemma retry_rank (attempts : list Z) (req : request) :
  delivers_good_pages api_search Inv ->
  pages_run_out api_search Inv rank ->
  forall s out s',
    Inv (api s) -> retry attempts req s = (out, s') ->
    (rank (api s') <= rank (api s))%nat
    /\ forall data, out = Ok data -> has_next_page data = true ->
         (rank (api s') < rank (api s))%nat.
Proof.
  intros Hstep Hrank.
  induction attempts as [| a rest IH]; simpl; intros s out s' Hs H.
  - injection H as <- <-. split; [lia |].
    intros data E. injection E as <-. discriminate.
  - destruct (api_search (api s) req) as [resp c] eqn:E.
    destruct (Hstep _ _ _ _ Hs E) as [Hc _].
    destruct (Hrank _ _ _ _ Hs E) as [Hle Hlt].
    destruct resp as [d | msg | e].
    + injection H as <- <-. simpl. split; [exact Hle |].
      intros data Ed Hn. injection Ed as <-. now apply (Hlt d).
    + destruct (str_contains "429" msg).
      * apply IH in H; [| exact Hc]. simpl in H.
        destruct H as [Hle' Hlt']. split; [lia |].
        intros data Ed Hn. specialize (Hlt' data Ed Hn). lia.
      * injection H as <- <-. simpl. split; [exact Hle |].
        intros data Ed. injection Ed as <-. discriminate.
    + injection H as <- <-. simpl. split; [exact Hle |]. discriminate.
Qed.

(** With more fuel than the rank of the client the loop returns a list. *)
Lemma search_loop_returns (query : string) (n_hits : Z) :
  delivers_good_pages api_search Inv ->
  pages_run_out api_search Inv rank ->
  forall fuel all_apps next_page seen_ids s,
    Inv (api s) -> (rank (api s) < fuel)%nat ->
    exists l s',
      loop fuel query n_hits all_apps next_page seen_ids s
      = Some (Ok l, s').
Proof.
  intros Hstep Hrank.
  induction fuel as [| fuel IH]; intros all np seen s Hs Hfuel; [lia |].
  cbn [search_loop].
  destruct (Z.of_nat (List.length all) <? n_hits); [| eauto].
  destruct (retry (range max_retries) (page_request query np) s)
    as [out s1] eqn:Er.
  destruct (retry_good_page _ _ Hstep _ _ _ Hs Er)
    as [Hs1 [data [-> Hdata]]].
  destruct (retry_rank _ _ Hstep Hrank _ _ _ Hs Er) as [_ Hlt].
  specialize (Hlt data eq_refl).
  destruct (is_none data); [eauto |].
  destruct (truthy data); [| simpl; eauto].
  specialize (Hdata eq_refl). cbn [negb].
  unfold has_next_page in Hlt. unfold page_ok in Hdata.
  destruct (_extract_apps_from_response data) as [[apps np'] | e];
    [| discriminate].
  pose proof (add_new_returns n_hits _ Hdata all seen) as Ha.
  destruct (add_new apps n_hits all seen) as [[all' seen'] | e];
    [| discriminate].
  destruct (truthy np'); [| simpl; eauto].
  cbn [negb]. apply IH; [exact Hs1 |]. specialize (Hlt eq_refl). lia.
Qed.

(** C4, amended. No failure of a search request that the handler of line
    285 deals with leaves [search].  When the login (if one is needed)
    and the client's [setLocale] return, every document the client
    delivers is falsy or accepted by the extractor, with hashable
    identifiers, and the pages with a cursor run out, [search] returns a
    list, whatever the failures of the requests are.  And an exception
    that leaves [search] is never one of those failures: it was raised
    by the login, by [setLocale], by the extractor or the hashing of an
    identifier on a document of the client, or it left the [try]
    statement of a request. *)
Theorem search_swallows_request_failures (s : session client)
    (query : string) (n_hits : Z) (lang country : string) :
  (delivers_good_pages api_search Inv ->
   pages_run_out api_search Inv rank ->
   (forall c locale, Inv c ->
      exists c', api_setLocale c locale = Ok c' /\ Inv c') ->
   (exists s1, (if _logged_in s then Ok s else login_anonymous s) = Ok s1
               /\ Inv (api s1)) ->
   exists fuel l s',
     forall fuel', (fuel <= fuel')%nat ->
       search' fuel' s query n_hits lang country = Some (Ok l, s'))
  /\ (forall fuel e s',
        search' fuel s query n_hits lang country = Some (Raise e, s') ->
        (_logged_in s = false /\ login_anonymous s = Raise e)
        \/ (exists c locale, api_setLocale c locale = Raise e)
        \/ (exists c req c', api_search c req = (Escaped e, c'))
        \/ (exists c req data c',
               api_search c req = (Returned data, c')
               /\ raised_by_page n_hits data e)).
Proof.
  split.
  - intros Hstep Hrank Hlocale [s1 [Hlogin Hs1]].
    destruct (Hlocale (api s1) (lang ++ "_" ++ str_upper country)%string Hs1)
      as [c [Hc Hinv]].
    destruct (search_loop_returns query n_hits Hstep Hrank (S (rank c)) []
                VNone [] {| api := c; _logged_in := _logged_in s1;
                            effects := effects s1 |} Hinv
                (Nat.lt_succ_diag_r _))
      as (all & s' & Hloop).
    exists (S (rank c)), (list_slice_to n_hits all), s'.
    intros fuel' Hfuel. unfold search. rewrite Hlogin, Hc.
    now rewrite (search_loop_fuel_le _ _ _ _ _ _ _ _ _ _ Hfuel Hloop).
  - intros fuel e s' H. unfold search in H.
    destruct (_logged_in s) eqn:Hl.
    + destruct (api_setLocale (api s) _) as [c | e0] eqn:Hc.
      * match type of H with
        | match ?run with _ => _ end = _ =>
            destruct run as [[[all | e1] s2] |] eqn:El; try discriminate
        end.
        injection H as <- <-.
        destruct (search_loop_raises _ _ _ _ _ _ _ _ _ El) as [Ho | Ho];
          auto.
      * injection H as <- <-. right. left. eauto.
    + destruct (login_anonymous s) as [s1 | e0] eqn:Hlogin.
      * destruct (api_setLocale (api s1) _) as [c | e0] eqn:Hc.
        -- match type of H with
           | match ?run with _ => _ end = _ =>
               destruct run as [[[all | e1] s2] |] eqn:El; try discriminate
           end.
           injection H as <- <-.
           destruct (search_loop_raises _ _ _ _ _ _ _ _ _ El) as [Ho | Ho];
             auto.
        -- injection H as <- <-. right. left. eauto.
      * injection H as <- <-. left. auto.
Qed.

End FailureHandling.

(** ** Concrete runs of the driver *)

(** Two pages, ten and five new apps, the second without a cursor: fifteen
    records, in the order of the pages. *)
Example two_pages_run :
  Fake.ids_of
    (Fake.run 3
       [Returned (Fake.page ["a0"; "a1"; "a2"; "a3"; "a4";
                             "a5"; "a6"; "a7"; "a8"; "a9"] (Some "page2"));
        Returned (Fake.page ["b0"; "b1"; "b2"; "b3"; "b4"] None)]
       "vpn" 100)
  = Some (map VStr ["a0"; "a1"; "a2"; "a3"; "a4"; "a5"; "a6"; "a7"; "a8"; "a9";
                    "b0"; "b1"; "b2"; "b3"; "b4"]).
Proof. vm_compute. reflexivity. Qed.

(** A limit of five on a page of ten: the first five, in order. *)
Example limit_run :
  Fake.ids_of
    (Fake.run 3
       [Returned (Fake.page ["a0"; "a1"; "a2"; "a3"; "a4";
                             "a5"; "a6"; "a7"; "a8"; "a9"] (Some "page2"))]
       "vpn" 5)
  = Some (map VStr ["a0"; "a1"; "a2"; "a3"; "a4"]).
Proof. vm_compute. reflexivity. Qed.

(** Two of three documents share an identifier: two records. *)
Example duplicate_run :
  Fake.ids_of
    (Fake.run 3 [Returned (Fake.page ["com.a"; "com.b"; "com.a"] None)]
       "vpn" 10)
  = Some [VStr "com.a"; VStr "com.b"].
Proof. vm_compute. reflexivity. Qed.

(** C1, as stated, fails for a negative limit: the list returned is
    empty and its length, 0, is above the limit. *)
Lemma search_negative_limit :
  exists l s', Fake.run 1 [] "vpn" (-1) = Some (Ok l, s')
               /\ ~ Z.of_nat (List.length l) <= -1.
Proof.
  exists [], (Fake.start []). split; [reflexivity | simpl; lia].
Qed.

Lemma search_length_bounded_witness :
  exists l s',
    Fake.run 3
      [Returned (Fake.page ["a0"; "a1"; "a2"; "a3"; "a4"; "a5"] (Some "page2"))]
      "vpn" 4 = Some (Ok l, s')
    /\ Z.of_nat (List.length l) <= 4.
Proof.
  destruct (Fake.run 3
              [Returned (Fake.page ["a0"; "a1"; "a2"; "a3"; "a4"; "a5"]
                           (Some "page2"))] "vpn" 4)
    as [[[l | e] s'] |] eqn:E; try (vm_compute in E; discriminate).
  exists l, s'. split; [reflexivity |].
  apply (search_length_bounded _ _ _ _ _ _ _ _ _ _ _ _ _ E). lia.
Defined.

Lemma search_ids_distinct_witness :
  exists l s' a b,
    Fake.run 3 [Returned (Fake.page ["com.a"; "com.b"; "com.a"] None)] "vpn" 10
    = Some (Ok l, s')
    /\ nth_error l 0 = Some a /\ nth_error l 1 = Some b
    /\ py_eq (appId a) (appId b) = false.
Proof.
  destruct (Fake.run 3 [Returned (Fake.page ["com.a"; "com.b"; "com.a"] None)]
              "vpn" 10) as [[[l | e] s'] |] eqn:E;
    try (vm_compute in E; discriminate).
  assert (E' := E). vm_compute in E'. injection E' as El _.
  destruct l as [| a [| b l]]; try discriminate.
  exists (a :: b :: l), s', a, b.
  split; [reflexivity |]. split; [reflexivity |]. split; [reflexivity |].
  apply (search_ids_distinct _ _ _ _ _ _ _ _ _ _ _ _ _ E 0%nat 1%nat);
    [lia | reflexivity | reflexivity].
Defined.

(** C10, as stated, fails when a document's "id" is not a string: the
    record is returned with that identifier. *)
Lemma search_returns_non_string_id :
  exists l s' a,
    Fake.run 1 [Returned (VList [VDict [("id", VInt 7)]])] "vpn" 5
    = Some (Ok l, s')
    /\ In a l /\ appId a = VInt 7 /\ is_str (appId a) = false.
Proof.
  do 3 eexists. split; [vm_compute; reflexivity |].
  split; [left; reflexivity |]. split; reflexivity.
Qed.

Lemma search_ids_truthy_witness :
  exists l s',
    Fake.run 3 [Returned (Fake.page ["com.a"; "com.b"] None)] "vpn" 10
    = Some (Ok l, s')
    /\ forall a, In a l -> truthy (appId a) = true.
Proof.
  destruct (Fake.run 3 [Returned (Fake.page ["com.a"; "com.b"] None)] "vpn" 10)
    as [[[l | e] s'] |] eqn:E; try (vm_compute in E; discriminate).
  exists l, s'. split; [reflexivity |].
  intros a Ha. apply (search_ids_truthy _ _ _ _ _ _ _ _ _ _ _ _ _ E a Ha).
Defined.

(** C4, as stated, fails: a page with a malformed document makes
    [search] raise. *)
Lemma search_raises_on_malformed_page :
  exists s',
    Fake.run 1
      [Returned (VList [VDict [("id", VStr "com.example.app");
                               ("details", VStr "n/a")]])]
      "vpn" 5
    = Some (Raise AttributeError, s').
Proof. eexists. vm_compute. reflexivity. Qed.

(** C4, also: an exception of the client that is no [Exception] is not
    caught by the handler of line 285 and leaves [search]. *)
Lemma search_raises_on_interrupt :
  exists s',
    Fake.run 1 [Escaped KeyboardInterrupt] "vpn" 5
    = Some (Raise KeyboardInterrupt, s').
Proof. eexists. vm_compute. reflexivity. Qed.

Lemma scripted_good_pages :
  delivers_good_pages Fake.api_search (Forall good_response).
Proof.
  intros c req resp c' Hc H. destruct c as [| r rest]; simpl in H.
  - injection H as <- <-. split; [constructor | exact I].
  - injection H as <- <-. inversion Hc as [| ? ? Hr Hrest]; subst.
    split; [exact Hrest | exact Hr].
Qed.

(** Every request takes an answer from the script, and on an empty script
    the request fails for good: the pages of a script run out. *)
Lemma scripted_pages_run_out :
  pages_run_out Fake.api_search (Forall good_response)
    (@List.length response).
Proof.
  intros c req resp c' _ H. destruct c as [| r rest]; simpl in H;
    injection H as <- <-; simpl.
  - split; [lia | discriminate].
  - split; [lia |]. intros; lia.
Qed.

Lemma search_swallows_request_failures_witness :
  exists fuel l s',
    forall fuel', (fuel <= fuel')%nat ->
      Fake.run fuel'
        [Failed "HTTP Error 429: Too Many Requests";
         Returned (Fake.page ["com.a"; "com.b"] (Some "page2"));
         Failed "HTTP Error 500: Internal Server Error"]
        "vpn" 5
      = Some (Ok l, s').
Proof.
  set (script := [Failed "HTTP Error 429: Too Many Requests";
                  Returned (Fake.page ["com.a"; "com.b"] (Some "page2"));
                  Failed "HTTP Error 500: Internal Server Error"]).
  assert (Hscript : Forall good_response script).
  { constructor; [exact I |].
    constructor; [intros _; vm_compute; reflexivity |].
    constructor; [exact I |]. constructor. }
  exact (proj1 (search_swallows_request_failures
                  Fake.client Fake.api_search Fake.api_setLocale
                  Fake.str_upper Fake.login_anonymous (Forall good_response)
                  (@List.length response)
                  (Fake.start script) "vpn" 5 "en" "us")
           scripted_good_pages scripted_pages_run_out
           (fun c _ Hc => ex_intro _ c (conj eq_refl Hc))
           (ex_intro _ (Fake.start script) (conj eq_refl Hscript))).
Defined.

Lemma retry_policy_witness :
  exists s',
    request_with_retry Fake.api_search (range max_retries) (ByQuery "vpn")
      (Fake.start [Failed "429"; Failed "HTTP 429"; Failed "code=429"])
    = (Ok VNone, s')
    /\ effects s' = [Request (ByQuery "vpn"); Sleep 5;
                     Request (ByQuery "vpn"); Sleep 10;
                     Request (ByQuery "vpn"); Sleep 15].
Proof.
  destruct (request_with_retry Fake.api_search (range max_retries)
              (ByQuery "vpn")
              (Fake.start [Failed "429"; Failed "HTTP 429"; Failed "code=429"]))
    as [out s'] eqn:E.
  destruct (proj1 (proj2 (proj2 (retry_policy _ Fake.api_search (ByQuery "vpn")
              (Fake.start [Failed "429"; Failed "HTTP 429"; Failed "code=429"]))))
              out s' E) as (k & tail & Hk & He & Ht).
  exists s'. vm_compute in E. injection E as <- <-.
  split; reflexivity.
Defined.

(** ** The credential cache *)

(** C9. [_load_config] never raises: it returns what [json.load] makes of
    the file when the path exists, the file is read and the text decodes,
    and [None] when the path does not exist, the file cannot be read, or
    the text does not decode. *)
Theorem load_config_total (json_load : string -> result value)
    (fs : config_file) :
  (exists v, _load_config json_load fs = Ok v)
  /\ (forall text v,
         path_exists fs = true -> open_read fs = Ok text ->
         close_file fs = Ok tt -> json_load text = Ok v ->
         _load_config json_load fs = Ok v)
  /\ (path_exists fs = false -> _load_config json_load fs = Ok VNone)
  /\ (forall e, open_read fs = Raise e \/ close_file fs = Raise e ->
         _load_config json_load fs = Ok VNone)
  /\ (forall text e,
         open_read fs = Ok text -> json_load text = Raise e ->
         _load_config json_load fs = Ok VNone).
Proof.
  unfold _load_config.
  destruct (path_exists fs).
  - destruct (open_read fs) as [text | e0]; simpl.
    + destruct (json_load text) as [v | e1] eqn:Ej; simpl.
      * destruct (close_file fs) as [[] | e2]; simpl.
        -- split; [eauto |]. split; [| split; [| split]].
           ++ intros t v' _ Ht _ Hv. injection Ht as <-. congruence.
           ++ discriminate.
           ++ intros e [He | He]; discriminate.
           ++ intros t e Ht Hv. injection Ht as <-. congruence.
        -- split; [eauto |]. split; [| split; [| split]].
           ++ intros t v' _ _ Hc. discriminate.
           ++ discriminate.
           ++ reflexivity.
           ++ reflexivity.
      * split; [eauto |]. split; [| split; [| split]].
        -- intros t v' _ Ht _ Hv. injection Ht as <-. congruence.
        -- discriminate.
        -- reflexivity.
        -- reflexivity.
    + split; [eauto |]. split; [| split; [| split]].
      * intros t v' _ Ht. discriminate.
      * discriminate.
      * reflexivity.
      * reflexivity.
  - split; [eauto |]. split; [| split; [| split]].
    + discriminate.
    + reflexivity.
    + reflexivity.
    + reflexivity.
Qed.

Lemma load_config_total_witness :
  _load_config toy_json_load
    {| path_exists := true; open_read := Ok "{}"; close_file := Ok tt |}
  = Ok (VDict [])
  /\ _load_config toy_json_load
       {| path_exists := true; open_read := Ok "{ not json";
          close_file := Ok tt |}
     = Ok VNone.
Proof.
  split.
  - apply (proj1 (proj2 (load_config_total toy_json_load
                           {| path_exists := true; open_read := Ok "{}";
                              close_file := Ok tt |}))
             "{}"%string); reflexivity.
  - apply (proj2 (proj2 (proj2 (proj2 (load_config_total toy_json_load
             {| path_exists := true; open_read := Ok "{ not json";
                close_file := Ok tt |}))))
             "{ not json"%string ValueError); reflexivity.
Defined.

(** C5, the failing input: a micros string of one superscript two passes
    [isdigit] and is refused by [int], so the normaliser raises instead of
    giving the price 0.0. *)
Lemma parse_app_raises_on_superscript_digit :
  let two := String (ascii_of_nat 178) EmptyString in
  isdigit two = true
  /\ _parse_app (VDict [("id", VStr "com.example.app");
                        ("offer", VList [VDict [("micros", VStr two)]])])
     = Raise ValueError.
Proof. split; reflexivity. Qed.

(** ** Well-shaped pages, concretely *)

Example fake_page_well_shaped :
  page_well_shaped (Fake.page ["com.a"; "com.b"] (Some "page2")) = true.
Proof. reflexivity. Qed.

Example int64_micros_ok : micros_ok (VInt (2 ^ 63 - 1)) = true.
Proof. vm_compute. reflexivity. Qed.

(** ** Failures outside the request

    What the login and the client's [setLocale] raise leaves [search]. *)

Lemma search_propagates_login_failure {client : Type}
    (api_search : client -> request -> response * client)
    (api_setLocale : client -> string -> result client)
    (str_upper : string -> string)
    (login_anonymous : session client -> result (session client))
    (fuel : nat) (s : session client) (query : string) (n_hits : Z)
    (lang country : string) (e : exn) :
  _logged_in s = false ->
  login_anonymous s = Raise e ->
  search api_search api_setLocale str_upper login_anonymous fuel s query
    n_hits lang country = Some (Raise e, s).
Proof. intros Hl He. unfold search. now rewrite Hl, He. Qed.

Lemma search_propagates_locale_failure {client : Type}
    (api_search : client -> request -> response * client)
    (api_setLocale : client -> string -> result client)
    (str_upper : string -> string)
    (login_anonymous : session client -> result (session client))
    (fuel : nat) (s : session client) (query : string) (n_hits : Z)
    (lang country : string) (e : exn) :
  _logged_in s = true ->
  api_setLocale (api s) (lang ++ "_" ++ str_upper country)%string = Raise e ->
  search api_search api_setLocale str_upper login_anonymous fuel s query
    n_hits lang country = Some (Raise e, s).
Proof. intros Hl He. unfold search. now rewrite Hl, He. Qed.

(** * Further properties *)

(** ** The fields of a record *)

Lemma before_char_clean (sep : ascii) (s : string) :
  occurs sep (before_char sep s) = false.
Proof.
  induction s as [| c r IH]; simpl; [reflexivity |].
  destruct (Ascii.eqb c sep) eqn:E; simpl; [reflexivity |].
  now rewrite E, IH.
Qed.

Lemma before_char_split (sep : ascii) (s : string) :
  s = before_char sep s
  \/ exists rest, s = (before_char sep s ++ String sep rest)%string.
Proof.
  induction s as [| c r IH]; simpl; [now left |].
  destruct (Ascii.eqb c sep) eqn:E.
  - apply Ascii.eqb_eq in E. subst c. right. exists r. reflexivity.
  - destruct IH as [IH | [rest IH]].
    + left. now rewrite <- IH.
    + right. exists rest. simpl. now rewrite <- IH.
Qed.

(** The developer identifier is the part of the developer's e-mail address
    before the first "@": it contains no "@", and the address is the
    identifier itself or the identifier, an "@" and a rest. *)
Theorem developer_id_is_local_part (item outer d : dict) (email : string)
    (r : app_record) :
  _parse_app (VDict item) = Ok r ->
  lookup "details" item = Some (VDict outer) ->
  lookup "appDetails" outer = Some (VDict d) ->
  lookup "developerEmail" d = Some (VStr email) ->
  email <> ""%string ->
  exists local,
    developerId r = VStr local
    /\ occurs "@" local = false
    /\ (email = local
        \/ exists rest, email = (local ++ String "@" rest)%string).
Proof.
  intros H Hd Ha He Hne.
  destruct (parse_app_blocks _ _ H) as [details (Hdet & _ & _ & _ & _ & Hid & _)].
  assert (Edet : details = VDict d).
  { unfold parse_details, get_or in Hdet. rewrite Hd in Hdet. simpl in Hdet.
    rewrite Ha in Hdet.
    destruct (truthy (VDict d)); simpl in Hdet; congruence. }
  subst details. unfold parse_developer_id in Hid. simpl in Hid.
  unfold get, get_or in Hid. rewrite He in Hid.
  assert (Ht : truthy (VStr email) = true).
  { simpl. destruct (String.eqb_spec email ""); [contradiction | reflexivity]. }
  rewrite Ht in Hid. simpl in Hid. injection Hid as Hid.
  exists (before_char "@" email). split; [now symmetry |].
  split; [apply before_char_clean | apply before_char_split].
Qed.

Lemma developer_id_is_local_part_witness :
  exists r local,
    _parse_app
      (VDict [("id", VStr "com.example.app");
              ("details",
               VDict [("appDetails",
                       VDict [("developerEmail", VStr "dev@example.com")])])])
    = Ok r
    /\ developerId r = VStr local /\ occurs "@" local = false.
Proof.
  destruct (_parse_app
              (VDict [("id", VStr "com.example.app");
                      ("details",
                       VDict [("appDetails",
                               VDict [("developerEmail",
                                       VStr "dev@example.com")])])]))
    as [r | e] eqn:E; [| vm_compute in E; discriminate].
  destruct (developer_id_is_local_part _ _ _ "dev@example.com" _ E
              eq_refl eq_refl eq_refl) as [local (H1 & H2 & _)];
    [discriminate |].
  exists r, local. repeat split; assumption.
Defined.

Lemma substring_prefix (n : nat) (s : string) :
  String.prefix (String.substring 0 n s) s = true.
Proof.
  revert s; induction n as [| n IH]; intros s.
  - destruct s; reflexivity.
  - destruct s as [| c r]; simpl; [reflexivity |].
    rewrite IH. destruct (ascii_dec c c); [reflexivity | contradiction].
Qed.

Lemma substring_length (n : nat) (s : string) :
  String.length (String.substring 0 n s) = Nat.min n (String.length s).
Proof.
  revert s; induction n as [| n IH]; intros s.
  - destruct s; reflexivity.
  - destruct s as [| c r]; simpl; [reflexivity |]. now rewrite IH.
Qed.

Lemma substring_all (n : nat) (s : string) :
  (String.length s <= n)%nat -> String.substring 0 n s = s.
Proof.
  revert s; induction n as [| n IH]; intros s Hs.
  - destruct s; [reflexivity | simpl in Hs; lia].
  - destruct s as [| c r]; simpl; [reflexivity |].
    simpl in Hs. rewrite IH by lia. reflexivity.
Qed.

(** The summary made from a textual "descriptionHtml" is a prefix of it
    of at most 200 characters, the whole text when that is not longer,
    whether or not the document has a "descriptionShort". *)
Theorem summary_is_bounded_prefix (item : dict) (text : string)
    (r : app_record) :
  _parse_app (VDict item) = Ok r ->
  lookup "descriptionHtml" item = Some (VStr text) ->
  exists cut,
    summary r = VStr cut
    /\ String.prefix cut text = true
    /\ String.length cut = Nat.min 200 (String.length text)
    /\ ((String.length text <= 200)%nat -> cut = text).
Proof.
  intros H Hl.
  destruct (parse_app_blocks _ _ H) as [details (_ & _ & _ & _ & Hs & _)].
  unfold parse_summary, has_key, get, get_or in Hs. rewrite Hl in Hs.
  unfold slice_to in Hs. injection Hs as Hs.
  exists (String.substring 0 200 text). split; [now symmetry |].
  split; [apply substring_prefix |].
  split; [apply substring_length | apply substring_all].
Qed.

Lemma summary_is_bounded_prefix_witness :
  exists r, _parse_app (VDict [("id", VStr "com.example.app");
                               ("descriptionHtml", VStr "A short text");
                               ("descriptionShort", VStr "Other")])
            = Ok r
            /\ summary r = VStr "A short text".
Proof.
  destruct (_parse_app (VDict [("id", VStr "com.example.app");
                               ("descriptionHtml", VStr "A short text");
                               ("descriptionShort", VStr "Other")]))
    as [r | e] eqn:E; [| vm_compute in E; discriminate].
  destruct (summary_is_bounded_prefix _ "A short text" _ E eq_refl)
    as [cut (H1 & _ & _ & H4)].
  exists r. split; [reflexivity |].
  rewrite H1, H4; [reflexivity | simpl; lia].
Defined.

Lemma find_icon_first (before after : list value) (i : dict) :
  forallb not_an_icon before = true ->
  py_eq (get i "imageType") (VInt 4) = true ->
  find_icon (before ++ VDict i :: after) = Ok (get i "imageUrl").
Proof.
  intros Hb Hi. induction before as [| img before IH]; simpl.
  - now rewrite Hi.
  - simpl in Hb. apply andb_prop in Hb as [Himg Hb].
    destruct img as [| b | z | f | s | l | d]; try discriminate.
    simpl in Himg. apply negb_true_iff in Himg. simpl.
    rewrite Himg. now apply IH.
Qed.

Lemma find_icon_none (images : list value) :
  forallb not_an_icon images = true -> find_icon images = Ok VNone.
Proof.
  induction images as [| img images IH]; simpl; intros H; [reflexivity |].
  apply andb_prop in H as [Himg H].
  destruct img as [| b | z | f | s | l | d]; try discriminate.
  simpl in Himg. apply negb_true_iff in Himg. simpl.
  rewrite Himg. now apply IH.
Qed.

(** The icon of a record is the "imageUrl" of the first image of type 4,
    whatever follows it in the list of images, well formed or not; it is
    [None] when no image has the type 4. *)
Theorem icon_is_first_of_type_4 (item : dict) (r : app_record) :
  _parse_app (VDict item) = Ok r ->
  (forall before i after,
      lookup "image" item = Some (VList (before ++ VDict i :: after)) ->
      forallb not_an_icon before = true ->
      py_eq (get i "imageType") (VInt 4) = true ->
      icon r = get i "imageUrl")
  /\ (forall images,
         lookup "image" item = Some (VList images) ->
         forallb not_an_icon images = true ->
         icon r = VNone).
Proof.
  intros H.
  destruct (parse_app_blocks _ _ H) as [details (_ & _ & Hi & _)].
  unfold parse_icon, get_or in Hi.
  split.
  - intros before i after Hl Hb H4. rewrite Hl in Hi. simpl in Hi.
    rewrite (find_icon_first _ _ _ Hb H4) in Hi. congruence.
  - intros images Hl Hn. rewrite Hl in Hi. simpl in Hi.
    rewrite (find_icon_none _ Hn) in Hi. congruence.
Qed.

Lemma icon_is_first_of_type_4_witness :
  exists r,
    _parse_app
      (VDict [("id", VStr "com.example.app");
              ("image",
               VList [VDict [("imageType", VInt 1); ("imageUrl", VStr "shot")];
                      VDict [("imageType", VInt 4); ("imageUrl", VStr "icon")];
                      VStr "not an image"])])
    = Ok r
    /\ icon r = VStr "icon".
Proof.
  destruct (_parse_app
      (VDict [("id", VStr "com.example.app");
              ("image",
               VList [VDict [("imageType", VInt 1); ("imageUrl", VStr "shot")];
                      VDict [("imageType", VInt 4); ("imageUrl", VStr "icon")];
                      VStr "not an image"])]))
    as [r | e] eqn:E; [| vm_compute in E; discriminate].
  exists r. split; [reflexivity |].
  apply (proj1 (icon_is_first_of_type_4 _ _ E)
           [VDict [("imageType", VInt 1); ("imageUrl", VStr "shot")]]
           [("imageType", VInt 4); ("imageUrl", VStr "icon")]
           [VStr "not an image"]); reflexivity.
Defined.

(** ** The fields that the normaliser reads *)

Lemma parse_app_congruence (item1 item2 : dict) :
  (forall k, In k parsed_keys -> k <> "offer"%string ->
             lookup k item1 = lookup k item2) ->
  parse_offer item1 = parse_offer item2 ->
  _parse_app (VDict item1) = _parse_app (VDict item2).
Proof.
  intros Hk Ho.
  assert (K : forall k, In k parsed_keys -> k <> "offer"%string ->
                        forall dflt, get_or item1 k dflt = get_or item2 k dflt).
  { intros k Hin Hne dflt. unfold get_or. now rewrite (Hk k Hin Hne). }
  assert (B : forall k, In k parsed_keys -> k <> "offer"%string ->
                        has_key k item1 = has_key k item2).
  { intros k Hin Hne. unfold has_key. now rewrite (Hk k Hin Hne). }
  assert (Hdet : parse_details item1 = parse_details item2).
  { unfold parse_details.
    now rewrite (K "details"%string)
      by first [discriminate | simpl; tauto]. }
  assert (Hsc : parse_score item1 = parse_score item2).
  { unfold parse_score.
    now rewrite (K "aggregateRating"%string)
      by first [discriminate | simpl; tauto]. }
  assert (Hic : parse_icon item1 = parse_icon item2).
  { unfold parse_icon.
    now rewrite (K "image"%string) by first [discriminate | simpl; tauto]. }
  assert (Hsu : parse_summary item1 = parse_summary item2).
  { unfold parse_summary, get.
    rewrite (B "descriptionHtml"%string), (B "descriptionShort"%string),
      (K "descriptionHtml"%string), (K "descriptionShort"%string)
      by first [discriminate | simpl; tauto].
    reflexivity. }
  unfold _parse_app. cbn [as_dict bind]. unfold get.
  rewrite Hdet, Hsc, Hic, Ho, Hsu.
  rewrite (K "id"%string), (K "docid"%string), (K "title"%string),
    (B "title"%string) by first [discriminate | simpl; tauto].
  reflexivity.
Qed.

Lemma parse_offer_congruence (item1 item2 : dict) :
  lookup "offer" item1 = lookup "offer" item2 ->
  parse_offer item1 = parse_offer item2.
Proof. intros H. unfold parse_offer, get_or. now rewrite H. Qed.

(** The normaliser reads nine fields of the document: two documents that
    agree on them give the same record, or raise alike, whatever other
    fields they have and in whatever order. *)
Theorem parse_app_reads_nine_fields (item1 item2 : dict) :
  (forall k, In k parsed_keys -> lookup k item1 = lookup k item2) ->
  _parse_app (VDict item1) = _parse_app (VDict item2).
Proof.
  intros Hk. apply parse_app_congruence.
  - intros k Hin _. now apply Hk.
  - apply parse_offer_congruence. apply Hk. simpl; tauto.
Qed.

Lemma parse_app_reads_nine_fields_witness :
  _parse_app (VDict [("id", VStr "com.example.app"); ("title", VStr "App")])
  = _parse_app (VDict [("category", VStr "TOOLS"); ("title", VStr "App");
                       ("id", VStr "com.example.app")]).
Proof.
  apply parse_app_reads_nine_fields.
  intros k Hin. simpl in Hin.
  repeat (destruct Hin as [<- | Hin]; [reflexivity |]). contradiction.
Defined.

Lemma decimal_is_digit (s : string) :
  all_chars is_decimal s = true -> all_chars is_digit_char s = true.
Proof.
  induction s as [| c r IH]; simpl; intros H; [reflexivity |].
  apply andb_prop in H as [Hc Hr]. rewrite (IH Hr), andb_true_r.
  unfold is_digit_char. now rewrite Hc.
Qed.

Lemma decimal_micros_number (s : string) :
  all_chars is_decimal s = true -> s <> ""%string ->
  (String.length s <= int_max_str_digits)%nat ->
  micros_number (VStr s) = Ok (VInt (decimal_value 0 s)).
Proof.
  intros Hd Hne Hlen. unfold micros_number, isdigit, int_of_str.
  assert (E : (s =? "")%string = false)
    by (destruct (String.eqb_spec s ""); [contradiction | reflexivity]).
  rewrite E, (decimal_is_digit _ Hd), Hd. simpl.
  assert (L : (int_max_str_digits <? String.length s)%nat = false)
    by (apply Nat.ltb_ge; exact Hlen).
  rewrite L. reflexivity.
Qed.

(** Micros given as a string of decimal digits are priced like the
    integer that the string denotes: the two documents give the same
    record, or raise alike. *)
Theorem decimal_micros_as_integer (item : dict) (s : string) :
  all_chars is_decimal s = true -> s <> ""%string ->
  (String.length s <= int_max_str_digits)%nat ->
  _parse_app
    (VDict (("offer", VList [VDict [("micros", VStr s)]]) :: item))
  = _parse_app
      (VDict (("offer", VList [VDict [("micros", VInt (decimal_value 0 s))]])
              :: item)).
Proof.
  intros Hd Hne Hlen. apply parse_app_congruence.
  - intros k Hin Hk. simpl.
    destruct (String.eqb_spec k "offer"); [contradiction | reflexivity].
  - unfold parse_offer, get_or. simpl lookup. cbn iota.
    cbn [truthy hd]. unfold get_or. simpl lookup. cbn iota.
    rewrite (decimal_micros_number _ Hd Hne Hlen). reflexivity.
Qed.

Lemma decimal_micros_as_integer_witness :
  _parse_app (VDict [("offer", VList [VDict [("micros", VStr "2490000")]]);
                     ("id", VStr "com.example.app")])
  = _parse_app (VDict [("offer", VList [VDict [("micros", VInt 2490000)]]);
                       ("id", VStr "com.example.app")]).
Proof.
  apply (decimal_micros_as_integer [("id", VStr "com.example.app")]
           "2490000"); [reflexivity | discriminate | vm_compute; lia].
Defined.

(** ** The extractor on parts of a response *)

Lemma for_each_append {A S} (body : A -> S -> result S) (l1 l2 : list A) :
  forall s,
    for_each body (l1 ++ l2) s
    = (do s1 <~ for_each body l1 s; for_each body l2 s1).
Proof.
  induction l1 as [| x l1 IH]; intros s; simpl; [reflexivity |].
  destruct (body x s) as [s1 | e]; simpl; [apply IH | reflexivity].
Qed.

Lemma for_each_uniform {A S} (body : A -> S -> result S) :
  (forall x s s2 s', body x s = Ok s' -> exists s2', body x s2 = Ok s2') ->
  forall l s s2 s',
    for_each body l s = Ok s' -> exists s2', for_each body l s2 = Ok s2'.
Proof.
  intros Hbody l; induction l as [| x l IH]; simpl; intros s s2 s' H.
  - eauto.
  - apply bind_ok in H as [s1 [H1 H]].
    destruct (Hbody x s s2 s1 H1) as [s3 E]. rewrite E; simpl.
    eapply IH; eassumption.
Qed.

Lemma visit_app_uniform (app : value) (apps apps2 apps' : list app_record) :
  visit_app app apps = Ok apps' -> exists r, visit_app app apps2 = Ok r.
Proof.
  unfold visit_app. destruct app as [| b | z | f | s | l | a]; eauto.
  destruct (truthy (get a "id")); [| eauto].
  destruct (_parse_app (VDict a)); simpl; [eauto | discriminate].
Qed.

Lemma update_cursor_uniform (node : dict) (cur cur2 cur' : value) :
  update_cursor node cur = Ok cur' -> exists r, update_cursor node cur2 = Ok r.
Proof.
  unfold update_cursor.
  destruct (as_dict (get_or node "containerMetadata" (VDict []))) as [c | e];
    simpl; [| discriminate].
  destruct (truthy (get c "nextPageUrl")); eauto.
Qed.

Lemma visit_cluster_uniform (cluster : value)
    (st st2 st' : list app_record * value) :
  visit_cluster cluster st = Ok st' ->
  exists r, visit_cluster cluster st2 = Ok r.
Proof.
  destruct st as [apps cur], st2 as [apps2 cur2]. unfold visit_cluster.
  destruct cluster as [| b | z | f | s | l | c]; eauto.
  intros H.
  apply bind_ok in H as [cur1 [Hc H]].
  apply bind_ok in H as [inner [Hi H]].
  apply bind_ok in H as [apps1 [Ha H]].
  destruct (update_cursor_uniform _ _ cur2 _ Hc) as [cur3 ->]; simpl.
  rewrite Hi; simpl.
  destruct (for_each_uniform _ visit_app_uniform _ _ apps2 _ Ha) as [apps3 ->].
  simpl. eauto.
Qed.

Lemma visit_doc_uniform (doc : value) (st st2 st' : list app_record * value) :
  visit_doc doc st = Ok st' -> exists r, visit_doc doc st2 = Ok r.
Proof.
  destruct st as [apps cur], st2 as [apps2 cur2]. unfold visit_doc.
  destruct doc as [| b | z | f | s | l | d]; eauto.
  intros H.
  apply bind_ok in H as [cur1 [Hc H]].
  apply bind_ok in H as [subs [Hs H]].
  apply bind_ok in H as [[apps1 cur3] [Hf H]].
  destruct (update_cursor_uniform _ _ cur2 _ Hc) as [cur4 ->]; simpl.
  rewrite Hs; simpl.
  destruct (for_each_uniform _ visit_cluster_uniform _ _ (apps2, cur4) _ Hf)
    as [[apps5 cur5] ->]; simpl.
  destruct (truthy (get d "id") && negb (truthy (get d "subItem")));
    [| eauto].
  destruct (_parse_app (VDict d)); simpl; [eauto | discriminate].
Qed.

Lemma node_cursor_truthy (node c : value) :
  In c (node_cursor node) -> truthy c = true.
Proof.
  unfold node_cursor. destruct node as [| b | z | f | s | l | d];
    try contradiction.
  destruct (get_or d "containerMetadata" (VDict [])); try contradiction.
  destruct (truthy (get d0 "nextPageUrl")) eqn:E; [| contradiction].
  intros [<- | []]. exact E.
Qed.

Lemma cursors_truthy (docs : list value) (c : value) :
  In c (cursors docs) -> truthy c = true.
Proof.
  unfold cursors. intros H. apply in_flat_map in H as [doc [_ H]].
  apply in_app_or in H as [H | H].
  - eapply node_cursor_truthy; eassumption.
  - apply in_flat_map in H as [cl [_ H]].
    eapply node_cursor_truthy; eassumption.
Qed.

Lemma last_in {A} (l : list A) (d : A) : l <> [] -> In (last l d) l.
Proof.
  induction l as [| x l IH]; intros H; [contradiction |].
  destruct l as [| y l]; [now left |].
  right. apply IH. discriminate.
Qed.

Lemma last_default {A} (l : list A) (d d' : A) :
  l <> [] -> last l d = last l d'.
Proof.
  induction l as [| x l IH]; intros H; [contradiction |].
  destruct l as [| y l]; [reflexivity |].
  apply IH. discriminate.
Qed.

(** The extractor works document by document: on a response made of two
    parts it returns the records of the first part followed by those of
    the second, and the cursor of the second part if it has one, that of
    the first part otherwise. *)
Theorem extractor_of_two_parts (docs1 docs2 : list value)
    (apps1 apps2 : list app_record) (cur1 cur2 : value) :
  _extract_apps_from_response (VList docs1) = Ok (apps1, cur1) ->
  _extract_apps_from_response (VList docs2) = Ok (apps2, cur2) ->
  _extract_apps_from_response (VList (docs1 ++ docs2))
  = Ok (apps1 ++ apps2, if is_none cur2 then cur1 else cur2).
Proof.
  unfold _extract_apps_from_response. simpl. intros H1 H2.
  rewrite for_each_append, H1. simpl.
  destruct (for_each_uniform _ visit_doc_uniform _ _ (apps1, cur1) _ H2)
    as [[apps cur] E].
  rewrite E. f_equal.
  pose proof (for_each_extends _ _ _ visit_doc_extends _ _ _ H2)
    as [Hc2 [rs2 [Hp2 Ha2]]].
  pose proof (for_each_extends _ _ _ visit_doc_extends _ _ _ E)
    as [Hc [rs [Hp Ha]]].
  simpl in Hc2, Ha2, Hc, Ha.
  rewrite Hp2 in Hp. injection Hp as <-. subst apps2 apps.
  f_equal.
  fold (cursors docs2) in Hc, Hc2.
  destruct (cursors docs2) as [| c cs] eqn:Ecs.
  - simpl in Hc, Hc2. subst. reflexivity.
  - assert (Hne : c :: cs <> []) by discriminate.
    rewrite (last_default _ cur1 VNone Hne), <- Hc2 in Hc. subst cur.
    assert (T : truthy cur2 = true).
    { apply (cursors_truthy docs2). rewrite Ecs, Hc2. now apply last_in. }
    destruct cur2; try reflexivity. discriminate.
Qed.

Lemma extractor_of_two_parts_witness :
  exists apps,
    _extract_apps_from_response
      (VList ([VDict [("containerMetadata",
                       VDict [("nextPageUrl", VStr "page2")]);
                      ("id", VStr "com.a")]]
              ++ [VDict [("id", VStr "com.b")]]))
    = Ok (apps, VStr "page2")
    /\ map appId apps = [VStr "com.a"; VStr "com.b"].
Proof.
  destruct (_extract_apps_from_response
              (VList [VDict [("containerMetadata",
                              VDict [("nextPageUrl", VStr "page2")]);
                             ("id", VStr "com.a")]]))
    as [[apps1 cur1] | e] eqn:E1; [| vm_compute in E1; discriminate].
  destruct (_extract_apps_from_response (VList [VDict [("id", VStr "com.b")]]))
    as [[apps2 cur2] | e] eqn:E2; [| vm_compute in E2; discriminate].
  exists (apps1 ++ apps2).
  rewrite (extractor_of_two_parts _ _ _ _ _ _ E1 E2).
  vm_compute in E1, E2.
  injection E1 as <- <-. injection E2 as <- <-.
  split; reflexivity.
Defined.

Lemma parse_all_ids (nodes : list value) (rs : list app_record) :
  parse_all nodes = Ok rs ->
  forallb has_id nodes = true ->
  map appId rs = map appId_of_node nodes.
Proof.
  revert rs; induction nodes as [| n nodes IH]; simpl; intros rs H Hid.
  - now injection H as <-.
  - apply bind_ok in H as [r [Hr H]].
    apply bind_ok in H as [rs' [Hrs H]]. injection H as <-.
    apply andb_prop in Hid as [Hn Hid]. simpl.
    rewrite (IH _ Hrs Hid). f_equal.
    destruct n as [| b | z | f | s | l | d]; try discriminate.
    simpl in Hn |- *. now apply parse_app_keeps_id.
Qed.

Lemma emitted_have_ids (docs : list value) :
  forallb has_id (emitted docs) = true.
Proof.
  apply forallb_forall. intros n Hn.
  apply emitted_spec in Hn as [(_ & H & _) | (_ & _ & _ & _ & _ & H)];
    exact H.
Qed.

(** The identifiers of the records that the extractor returns are the
    "id" fields of the emitted nodes, unchanged and in the order of the
    walk; each of them is truthy. *)
Theorem extractor_keeps_ids (data : value) (apps : list app_record)
    (cur : value) :
  _extract_apps_from_response data = Ok (apps, cur) ->
  exists docs,
    py_iter data = Ok docs
    /\ map appId apps = map appId_of_node (emitted docs)
    /\ forallb truthy (map appId apps) = true.
Proof.
  intros H. destruct (extract_extends _ _ H) as [docs [Hd [_ [rs [Hp Ha]]]]].
  simpl in Ha. subst rs. exists docs. split; [exact Hd |].
  pose proof (parse_all_ids _ _ Hp (emitted_have_ids docs)) as E.
  split; [exact E |].
  rewrite E. apply forallb_forall. intros x Hx.
  apply in_map_iff in Hx as [n [<- Hn]].
  pose proof (emitted_have_ids docs) as Hall.
  rewrite forallb_forall in Hall. specialize (Hall n Hn).
  destruct n; try discriminate. exact Hall.
Qed.

Lemma extractor_keeps_ids_witness :
  exists docs apps cur,
    _extract_apps_from_response (Fake.page ["com.a"; "com.b"] None)
    = Ok (apps, cur)
    /\ py_iter (Fake.page ["com.a"; "com.b"] None) = Ok docs
    /\ map appId apps = [VStr "com.a"; VStr "com.b"].
Proof.
  destruct (_extract_apps_from_response (Fake.page ["com.a"; "com.b"] None))
    as [[apps cur] | e] eqn:E; [| vm_compute in E; discriminate].
  destruct (extractor_keeps_ids _ _ _ E) as [docs (Hd & Hids & _)].
  exists docs, apps, cur. split; [reflexivity |]. split; [exact Hd |].
  rewrite Hids. vm_compute in Hd. injection Hd as <-. reflexivity.
Defined.

Lemma visit_doc_scalar (doc : value) (st : list app_record * value) :
  is_dict doc = false -> visit_doc doc st = Ok st.
Proof.
  destruct st as [apps cur].
  destruct doc; simpl; intros H; try reflexivity. discriminate.
Qed.

(** The documents of a response that are not dicts are skipped: with or
    without them the extractor gives the same result. *)
Theorem extractor_skips_scalars (docs : list value) :
  _extract_apps_from_response (VList docs)
  = _extract_apps_from_response (VList (filter is_dict docs)).
Proof.
  unfold _extract_apps_from_response. simpl.
  generalize (@nil app_record, VNone).
  induction docs as [| doc docs IH]; intros st; simpl; [reflexivity |].
  destruct (is_dict doc) eqn:E; simpl.
  - destruct (visit_doc doc st); simpl; [apply IH | reflexivity].
  - rewrite (visit_doc_scalar _ _ E). simpl. apply IH.
Qed.

(** ** The loop that appends the new records of a page, continued *)

Lemma Subseq_nil_l {A} (l : list A) : Subseq [] l.
Proof. induction l; constructor; assumption. Qed.

Lemma existsb_grows (x : value) (l1 l2 : list value) :
  existsb (py_eq x) l1 = true -> existsb (py_eq x) (l1 ++ l2) = true.
Proof. intros H. now rewrite existsb_app, H. Qed.

Lemma add_new_grows (n_hits : Z) (apps : list app_record) :
  forall all_apps seen_ids all_apps' seen_ids',
    add_new apps n_hits all_apps seen_ids = Ok (all_apps', seen_ids') ->
    exists news,
      all_apps' = all_apps ++ news
      /\ seen_ids' = seen_ids ++ map appId news
      /\ Subseq news apps
      /\ (Z.of_nat (List.length all_apps) < n_hits ->
          Z.of_nat (List.length all_apps') <= n_hits)
      /\ (Z.of_nat (List.length all_apps') < n_hits ->
          forall a, In a apps -> truthy (appId a) = true ->
            hashable (appId a) = true
            /\ (is_nan (appId a) = false ->
                existsb (py_eq (appId a)) seen_ids' = true)).
Proof.
  induction apps as [| app rest IH]; simpl; intros all seen all' seen' H.
  - injection H as <- <-. exists []. rewrite !app_nil_r.
    repeat split; try constructor; try lia; contradiction.
  - destruct (truthy (appId app)) eqn:Ht.
    + apply bind_ok in H as [known [Hk H]].
      unfold set_mem in Hk.
      destruct (hashable (appId app)) eqn:Hh; [| discriminate].
      injection Hk as Hk. destruct known.
      * destruct (IH _ _ _ _ H) as (news & E1 & E2 & Hs & Hb & Hc).
        exists news. repeat split; auto.
        -- now constructor.
        -- destruct H1 as [<- | Hin]; [exact Hh | now apply Hc].
        -- destruct H1 as [<- | Hin]; [| now apply Hc].
           intros _. rewrite E2. now apply existsb_grows.
      * destruct (n_hits <=? Z.of_nat (List.length (all ++ [app]))) eqn:El.
        -- injection H as <- <-. exists [app].
           apply Z.leb_le in El. rewrite length_app in *. simpl in *.
           repeat split; try lia.
           constructor. apply Subseq_nil_l.
        -- apply Z.leb_gt in El.
           destruct (IH _ _ _ _ H) as (news & E1 & E2 & Hs & Hb & Hc).
           exists (app :: news).
           split; [now rewrite E1, <- app_assoc |].
           split; [now rewrite E2, <- app_assoc |].
           split; [now constructor |].
           split; [intros _; now apply Hb |].
           intros Hlt a [<- | Hin] Ha; [| now apply Hc].
           split; [exact Hh |]. intros Hn. rewrite E2.
           apply existsb_grows. rewrite existsb_app. simpl.
           rewrite (py_eq_refl _ Hh Hn). now rewrite orb_true_r.
    + destruct (IH _ _ _ _ H) as (news & E1 & E2 & Hs & Hb & Hc).
      exists news. repeat split; auto.
      * now constructor.
      * destruct H1 as [<- | Hin]; [congruence | now apply Hc].
      * destruct H1 as [<- | Hin]; [congruence | now apply Hc].
Qed.

(** The loop keeps the records it has and appends records of the page in
    the order of the page.  When it started below the limit it ends at or
    below it.  When it ends below the limit every identified record of the
    page is represented: its identifier is hashable and, NaN apart, equal
    to one of those seen. *)
Theorem add_new_appends (n_hits : Z) (apps : list app_record) :
  forall all_apps seen_ids all_apps' seen_ids',
    add_new apps n_hits all_apps seen_ids = Ok (all_apps', seen_ids') ->
    exists news,
      all_apps' = all_apps ++ news
      /\ seen_ids' = seen_ids ++ map appId news
      /\ Subseq news apps
      /\ (Z.of_nat (List.length all_apps) < n_hits ->
          Z.of_nat (List.length all_apps') <= n_hits)
      /\ (Z.of_nat (List.length all_apps') < n_hits ->
          forall a, In a apps -> truthy (appId a) = true ->
            hashable (appId a) = true
            /\ (is_nan (appId a) = false ->
                existsb (py_eq (appId a)) seen_ids' = true)).
Proof. exact (add_new_grows n_hits apps). Qed.

Lemma add_new_appends_witness :
  exists news,
    add_new [Looping.the_app; Looping.the_app] 5 [] []
    = Ok ([] ++ news, [] ++ map appId news)
    /\ Subseq news [Looping.the_app; Looping.the_app].
Proof.
  destruct (add_new_appends 5 [Looping.the_app; Looping.the_app] [] []
              [Looping.the_app] [VStr "com.a"] eq_refl)
    as (news & E1 & E2 & Hs & _).
  exists news. rewrite <- E1, <- E2. split; [reflexivity | exact Hs].
Defined.

(** A page that brought nothing new below the limit brings nothing new
    when it is met again. *)
Lemma add_new_stable (n_hits : Z) (apps : list app_record)
    (all_apps : list app_record) (seen_ids : list value) :
  (forall a, In a apps -> truthy (appId a) = true ->
             hashable (appId a) = true
             /\ existsb (py_eq (appId a)) seen_ids = true) ->
  add_new apps n_hits all_apps seen_ids = Ok (all_apps, seen_ids).
Proof.
  induction apps as [| app rest IH]; simpl; intros H; [reflexivity |].
  destruct (truthy (appId app)) eqn:Ht.
  - destruct (H app (or_introl eq_refl) Ht) as [Hh Hk].
    unfold set_mem. rewrite Hh. simpl. rewrite Hk.
    apply IH. intros a Ha. apply H. now right.
  - apply IH. intros a Ha. apply H. now right.
Qed.

(** ** The driver, continued *)

Section DriverExtras.

Variable client : Type.
Variable api_search : client -> request -> response * client.
Variable api_setLocale : client -> string -> result client.
Variable str_upper : string -> string.

Abbreviation retry' := (request_with_retry api_search).
Abbreviation loop' := (search_loop api_search).

Lemma search_loop_bounded (fuel : nat) (query : string) (n_hits : Z) :
  forall all_apps next_page seen_ids s l s',
    loop' fuel query n_hits all_apps next_page seen_ids s = Some (Ok l, s') ->
    Z.of_nat (List.length all_apps) <= Z.max 0 n_hits ->
    Z.of_nat (List.length l) <= Z.max 0 n_hits.
Proof.
  induction fuel as [| fuel IH]; intros all np seen s l s' H Hb;
    cbn [search_loop] in H; [discriminate |].
  destruct (Z.of_nat (List.length all) <? n_hits) eqn:Hlt;
    [| injection H as <- <-; exact Hb].
  apply Z.ltb_lt in Hlt.
  destruct (retry' (range max_retries) (page_request query np) s)
    as [[data | e] s1]; [| discriminate].
  destruct (is_none data); [injection H as <- <-; exact Hb |].
  destruct (negb (truthy data)); [injection H as <- <-; exact Hb |].
  destruct (_extract_apps_from_response data) as [[apps np'] | e];
    [| discriminate].
  destruct (add_new apps n_hits all seen) as [[all' seen'] | e] eqn:Ea;
    [| discriminate].
  destruct (add_new_grows _ _ _ _ _ _ Ea) as (news & _ & _ & _ & Hle & _).
  specialize (Hle Hlt).
  destruct (negb (truthy np')); [injection H as <- <-; lia |].
  eapply IH; [eassumption | lia].
Qed.

(** The loop never holds more than [n_hits] records, so the final slice
    [all_apps[:n_hits]] removes nothing: what [search] returns is the list
    that the loop accumulated. *)
Theorem final_slice_removes_nothing (fuel : nat) (query : string)
    (n_hits : Z) (s s' : session client) (all_apps : list app_record) :
  loop' fuel query n_hits [] VNone [] s = Some (Ok all_apps, s') ->
  Z.of_nat (List.length all_apps) <= Z.max 0 n_hits
  /\ list_slice_to n_hits all_apps = all_apps.
Proof.
  intros H.
  assert (Hb : Z.of_nat (List.length all_apps) <= Z.max 0 n_hits).
  { eapply search_loop_bounded; [exact H | simpl; lia]. }
  split; [exact Hb |].
  unfold list_slice_to. destruct (0 <=? n_hits) eqn:E.
  - apply Z.leb_le in E. apply firstn_all2. lia.
  - apply Z.leb_gt in E.
    destruct all_apps as [| a l]; [apply firstn_nil | simpl in Hb; lia].
Qed.

(** With a limit of zero or less, [search] on a logged-in session returns
    the empty list at once: no request is sent and nothing is awaited. *)
Theorem no_request_without_limit (fuel : nat) (s : session client)
    (query : string) (n_hits : Z) (lang country : string) (c : client)
    (login_anonymous : session client -> result (session client)) :
  n_hits <= 0 ->
  _logged_in s = true ->
  api_setLocale (api s) (lang ++ "_" ++ str_upper country)%string = Ok c ->
  search api_search api_setLocale str_upper login_anonymous (S fuel) s query
    n_hits lang country
  = Some (Ok [], set_api c s).
Proof.
  intros Hn Hl Hc. unfold search. rewrite Hl, Hc. cbn [search_loop].
  change (Z.of_nat (@List.length app_record [])) with 0.
  destruct (0 <? n_hits) eqn:E; [apply Z.ltb_lt in E; lia |].
  unfold list_slice_to. destruct (0 <=? n_hits); now rewrite firstn_nil.
Qed.

Lemma retry_sends_one_request (attempts : list Z) (req : request) :
  forall s out s',
    retry' attempts req s = (out, s') ->
    _logged_in s' = _logged_in s
    /\ exists evs,
         effects s' = effects s ++ evs
         /\ Forall (fun ev => ev = Request req \/ exists n, ev = Sleep n) evs.
Proof.
  induction attempts as [| a rest IH]; simpl; intros s out s' H.
  - injection H as <- <-. split; [reflexivity |].
    exists []. now rewrite app_nil_r.
  - destruct (api_search (api s) req) as [resp c].
    destruct resp as [d | msg | e].
    + injection H as <- <-. split; [reflexivity |].
      exists [Request req]. split; [reflexivity |]. constructor; auto.
    + destruct (str_contains "429" msg).
      * apply IH in H as [Hl [evs [He Hf]]]. split; [exact Hl |].
        exists (Request req :: Sleep ((a + 1) * 5) :: evs).
        split; [rewrite He; simpl; now rewrite <- !app_assoc |].
        constructor; [auto |]. constructor; eauto.
      * injection H as <- <-. split; [reflexivity |].
        exists [Request req]. split; [reflexivity |]. constructor; auto.
    + injection H as <- <-. split; [reflexivity |].
      exists [Request req]. split; [reflexivity |]. constructor; auto.
Qed.

Lemma retry_about_cursor (attempts : list Z) (cursor : value) :
  truthy cursor = true ->
  forall s out s',
    retry' attempts (ByPage cursor) s = (out, s') ->
    exists evs, effects s' = effects s ++ evs /\ Forall about_cursor evs.
Proof.
  intros Ht s out s' H.
  destruct (retry_sends_one_request _ _ _ _ _ H) as [_ [evs [He Hf]]].
  exists evs. split; [exact He |].
  eapply Forall_impl; [| exact Hf].
  intros ev [-> | [n ->]]; simpl; auto.
Qed.

Lemma loop_about_cursor (fuel : nat) (query : string) (n_hits : Z) :
  forall all_apps next_page seen_ids s out s',
    truthy next_page = true ->
    loop' fuel query n_hits all_apps next_page seen_ids s = Some (out, s') ->
    exists evs, effects s' = effects s ++ evs /\ Forall about_cursor evs.
Proof.
  induction fuel as [| fuel IH]; intros all np seen s out s' Ht H;
    cbn [search_loop] in H; [discriminate |].
  assert (Hnil : exists evs, effects s = effects s ++ evs
                             /\ Forall about_cursor evs)
    by (exists []; now rewrite app_nil_r).
  destruct (Z.of_nat (List.length all) <? n_hits);
    [| injection H as <- <-; exact Hnil].
  unfold page_request in H. rewrite Ht in H.
  destruct (retry' (range max_retries) (ByPage np) s) as [attempted s1]
    eqn:Er.
  destruct (retry_about_cursor _ _ Ht _ _ _ Er) as [evs [He Hf]].
  assert (Hone : exists evs, effects s1 = effects s ++ evs
                             /\ Forall about_cursor evs) by eauto.
  destruct attempted as [data | e]; [| injection H as <- <-; exact Hone].
  destruct (is_none data); [injection H as <- <-; exact Hone |].
  destruct (negb (truthy data)); [injection H as <- <-; exact Hone |].
  destruct (_extract_apps_from_response data) as [[apps np'] | e];
    [| injection H as <- <-; exact Hone].
  destruct (add_new apps n_hits all seen) as [[all' seen'] | e];
    [| injection H as <- <-; exact Hone].
  destruct (negb (truthy np')) eqn:Hnp; [injection H as <- <-; exact Hone |].
  apply negb_false_iff in Hnp.
  destruct (IH _ _ _ _ _ _ Hnp H) as [evs' [He' Hf']].
  exists (evs ++ evs'). split; [now rewrite He', He, app_assoc |].
  apply Forall_app. now split.
Qed.

(** What the loop sends: first the query, once for each attempt at the
    first page, and then only cursors that are truthy; it never asks for
    a page with an empty cursor, and never sends the query again once a
    page has given a cursor. *)
Theorem requests_query_then_cursors (fuel : nat) (query : string)
    (n_hits : Z) (s s' : session client)
    (out : result (list app_record)) :
  loop' fuel query n_hits [] VNone [] s = Some (out, s') ->
  exists first later,
    effects s' = effects s ++ first ++ later
    /\ Forall (about_query query) first
    /\ Forall about_cursor later.
Proof.
  intros H. destruct fuel as [| fuel]; cbn [search_loop] in H;
    [discriminate |].
  assert (Hnil : exists first later,
             effects s = effects s ++ first ++ later
             /\ Forall (about_query query) first /\ Forall about_cursor later)
    by (exists [], []; now rewrite app_nil_r).
  destruct (Z.of_nat (@List.length app_record []) <? n_hits);
    [| injection H as <- <-; exact Hnil].
  unfold page_request in H. simpl truthy in H. cbn iota in H.
  destruct (retry' (range max_retries) (ByQuery query) s) as [attempted s1]
    eqn:Er.
  destruct (retry_sends_one_request _ _ _ _ _ Er) as [_ [evs [He Hf]]].
  assert (Hq : Forall (about_query query) evs).
  { eapply Forall_impl; [| exact Hf].
    intros ev [-> | [n ->]]; simpl; auto. }
  assert (Hone : exists first later,
             effects s1 = effects s ++ first ++ later
             /\ Forall (about_query query) first /\ Forall about_cursor later).
  { exists evs, []. rewrite app_nil_r. auto. }
  destruct attempted as [data | e]; [| injection H as <- <-; exact Hone].
  destruct (is_none data); [injection H as <- <-; exact Hone |].
  destruct (negb (truthy data)); [injection H as <- <-; exact Hone |].
  destruct (_extract_apps_from_response data) as [[apps np'] | e];
    [| injection H as <- <-; exact Hone].
  destruct (add_new apps n_hits [] []) as [[all' seen'] | e];
    [| injection H as <- <-; exact Hone].
  destruct (negb (truthy np')) eqn:Hnp; [injection H as <- <-; exact Hone |].
  apply negb_false_iff in Hnp.
  destruct (loop_about_cursor _ _ _ _ _ _ _ _ _ Hnp H) as [later [He' Hl]].
  exists evs, later. split; [now rewrite He', He, app_assoc |]. auto.
Qed.

End DriverExtras.

Section Staleness.

Variable client : Type.
Variable api_search : client -> request -> response * client.
Variable api_setLocale : client -> string -> result client.
Variable str_upper : string -> string.
Variable login_anonymous : session client -> result (session client).

Variable stale_page : value.
Variable apps : list app_record.
Variable cursor : value.

Hypothesis always_the_page :
  forall c req, exists c', api_search c req = (Returned stale_page, c').
Hypothesis page_truthy : truthy stale_page = true.
Hypothesis page_extracts :
  _extract_apps_from_response stale_page = Ok (apps, cursor).
Hypothesis cursor_truthy : truthy cursor = true.

Lemma stale_loop_never_ends (query : string) (n_hits : Z)
    (all_apps : list app_record) (seen_ids : list value) :
  Z.of_nat (List.length all_apps) < n_hits ->
  add_new apps n_hits all_apps seen_ids = Ok (all_apps, seen_ids) ->
  forall fuel next_page s,
    search_loop api_search fuel query n_hits all_apps next_page seen_ids s
    = None.
Proof.
  intros Hlt Hst fuel.
  induction fuel as [| fuel IH]; intros np s; [reflexivity |].
  cbn [search_loop]. apply Z.ltb_lt in Hlt. rewrite Hlt.
  destruct (always_the_page (api s) (page_request query np)) as [c Hc].
  change (range max_retries) with (0 :: [1; 2]).
  cbn [request_with_retry]. rewrite Hc.
  assert (Hn : is_none stale_page = false)
    by (destruct stale_page; try reflexivity; discriminate).
  rewrite Hn, page_truthy. cbn [negb].
  rewrite page_extracts, Hst, cursor_truthy. cbn [negb].
  apply IH.
Qed.

(** When the client answers every request with the same page, which has
    a cursor and fewer distinct identifiers than [n_hits], [search] never
    returns: the loop has no bound on the number of pages. *)
Theorem search_never_ends_on_a_stale_page (query : string) (n_hits : Z)
    (lang country : string) (s : session client)
    (all_apps : list app_record) (seen_ids : list value) :
  _logged_in s = true ->
  (forall c locale, exists c', api_setLocale c locale = Ok c') ->
  add_new apps n_hits [] [] = Ok (all_apps, seen_ids) ->
  Z.of_nat (List.length all_apps) < n_hits ->
  (forall a, In a apps -> is_nan (appId a) = false) ->
  forall fuel,
    search api_search api_setLocale str_upper login_anonymous fuel s query
      n_hits lang country = None.
Proof.
  intros Hl Hloc Ha Hlt Hnan fuel. unfold search. rewrite Hl.
  destruct (Hloc (api s) (lang ++ "_" ++ str_upper country)%string)
    as [c ->].
  destruct (add_new_grows _ _ _ _ _ _ Ha) as (news & _ & _ & _ & _ & Hc).
  specialize (Hc Hlt).
  assert (Hst : add_new apps n_hits all_apps seen_ids
                = Ok (all_apps, seen_ids)).
  { apply add_new_stable. intros a Hin Ht.
    destruct (Hc a Hin Ht) as [Hh Hk]. split; [exact Hh |].
    apply Hk. now apply Hnan. }
  destruct fuel as [| fuel]; [reflexivity |].
  cbn [search_loop].
  assert (H0 : (Z.of_nat (@List.length app_record []) <? n_hits) = true).
  { apply Z.ltb_lt. simpl. lia. }
  rewrite H0.
  match goal with
  | |- context [request_with_retry _ _ ?req ?s0] =>
      destruct (always_the_page (api s0) req) as [c1 Hc1]
  end.
  change (range max_retries) with (0 :: [1; 2]).
  cbn [request_with_retry]. rewrite Hc1.
  assert (Hn : is_none stale_page = false)
    by (destruct stale_page; try reflexivity; discriminate).
  rewrite Hn, page_truthy. cbn [negb].
  rewrite page_extracts, Ha, cursor_truthy. cbn [negb].
  rewrite (stale_loop_never_ends query n_hits all_apps seen_ids Hlt Hst).
  reflexivity.
Qed.

End Staleness.

Lemma search_never_ends_on_a_stale_page_witness :
  Looping.run 1000 2 = None.
Proof.
  apply (search_never_ends_on_a_stale_page
           Looping.client Looping.api_search (fun c _ => Ok c) (fun s => s)
           (fun s => Ok s) Looping.the_page [Looping.the_app] (VStr "next")
           (fun c req => ex_intro _ c eq_refl) eq_refl eq_refl eq_refl
           "vpn" 2 "en" "us" Looping.start [Looping.the_app] [VStr "com.a"]).
  - reflexivity.
  - intros c locale. exists c. reflexivity.
  - reflexivity.
  - simpl. lia.
  - intros a [<- | []]. reflexivity.
Defined.

Section NoSecondLogin.

Variable client : Type.
Variable api_search : client -> request -> response * client.
Variable api_setLocale : client -> string -> result client.
Variable str_upper : string -> string.

Lemma search_loop_keeps_flag (fuel : nat) (query : string) (n_hits : Z) :
  forall all_apps next_page seen_ids s out s',
    search_loop api_search fuel query n_hits all_apps next_page seen_ids s
    = Some (out, s') ->
    _logged_in s' = _logged_in s.
Proof.
  induction fuel as [| fuel IH]; intros all np seen s out s' H;
    cbn [search_loop] in H; [discriminate |].
  destruct (Z.of_nat (List.length all) <? n_hits);
    [| now injection H as <- <-].
  destruct (request_with_retry api_search (range max_retries)
              (page_request query np) s) as [attempted s1] eqn:Er.
  destruct (retry_sends_one_request _ _ _ _ _ _ _ Er) as [Hl _].
  destruct attempted as [data | e]; [| now injection H as <- <-].
  destruct (is_none data); [now injection H as <- <- |].
  destruct (negb (truthy data)); [now injection H as <- <- |].
  destruct (_extract_apps_from_response data) as [[apps np'] | e];
    [| now injection H as <- <-].
  destruct (add_new apps n_hits all seen) as [[all' seen'] | e];
    [| now injection H as <- <-].
  destruct (negb (truthy np')); [now injection H as <- <- |].
  rewrite <- Hl. eapply IH; eassumption.
Qed.

(** A session that is logged in is not logged in again by [search]: the
    run is the same whatever the login would do, and the session that
    comes back is still logged in, so the next search does not log in
    either. *)
Theorem search_logs_in_once (fuel : nat) (s : session client)
    (query : string) (n_hits : Z) (lang country : string)
    (login1 login2 : session client -> result (session client)) :
  _logged_in s = true ->
  search api_search api_setLocale str_upper login1 fuel s query n_hits
    lang country
  = search api_search api_setLocale str_upper login2 fuel s query n_hits
      lang country
  /\ forall out s',
       search api_search api_setLocale str_upper login1 fuel s query n_hits
         lang country = Some (out, s') ->
       _logged_in s' = true.
Proof.
  intros Hl. split.
  - unfold search. now rewrite Hl.
  - intros out s' H. unfold search in H. rewrite Hl in H.
    destruct (api_setLocale (api s) _) as [c | e];
      [| injection H as <- <-; exact Hl].
    match type of H with
    | match ?run with _ => _ end = _ =>
        destruct run as [[[all | e] s2] |] eqn:El; try discriminate
    end;
      injection H as <- <-;
      apply search_loop_keeps_flag in El; rewrite El; exact Hl.
Qed.

End NoSecondLogin.

Lemma search_logs_in_once_witness :
  Fake.run 3 [Returned (Fake.page ["com.a"] None)] "vpn" 5
  = search Fake.api_search Fake.api_setLocale Fake.str_upper
      (fun _ => Raise (ClientError "no network")) 3
      (Fake.start [Returned (Fake.page ["com.a"] None)]) "vpn" 5 "en" "us".
Proof.
  apply (proj1 (search_logs_in_once Fake.client Fake.api_search
                  Fake.api_setLocale Fake.str_upper 3
                  (Fake.start [Returned (Fake.page ["com.a"] None)])
                  "vpn" 5 "en" "us" Fake.login_anonymous
                  (fun _ => Raise (ClientError "no network")) eq_refl)).
Defined.

Lemma final_slice_removes_nothing_witness :
  exists all_apps s',
    search_loop Fake.api_search 3 "vpn" 2 [] VNone []
      (Fake.start [Returned (Fake.page ["com.a"; "com.b"; "com.c"] None)])
    = Some (Ok all_apps, s')
    /\ list_slice_to 2 all_apps = all_apps.
Proof.
  destruct (search_loop Fake.api_search 3 "vpn" 2 [] VNone []
              (Fake.start
                 [Returned (Fake.page ["com.a"; "com.b"; "com.c"] None)]))
    as [[[all | e] s'] |] eqn:E; try (vm_compute in E; discriminate).
  exists all, s'. split; [reflexivity |].
  apply (final_slice_removes_nothing _ _ _ _ _ _ _ _ E).
Defined.

Lemma no_request_without_limit_witness :
  Fake.run 1 [Returned (Fake.page ["com.a"] None)] "vpn" 0
  = Some (Ok [], Fake.start [Returned (Fake.page ["com.a"] None)]).
Proof.
  apply (no_request_without_limit Fake.client Fake.api_search
           Fake.api_setLocale Fake.str_upper 0
           (Fake.start [Returned (Fake.page ["com.a"] None)]) "vpn" 0
           "en" "us" [Returned (Fake.page ["com.a"] None)]
           Fake.login_anonymous); [lia | reflexivity | reflexivity].
Defined.

Lemma requests_query_then_cursors_witness :
  exists out s' first later,
    search_loop Fake.api_search 3 "vpn" 5 [] VNone []
      (Fake.start [Failed "HTTP Error 429";
                   Returned (Fake.page ["com.a"] (Some "page2"));
                   Returned (Fake.page ["com.b"] None)])
    = Some (out, s')
    /\ effects s' = [] ++ first ++ later
    /\ Forall (about_query "vpn") first /\ Forall about_cursor later.
Proof.
  destruct (search_loop Fake.api_search 3 "vpn" 5 [] VNone []
              (Fake.start [Failed "HTTP Error 429";
                           Returned (Fake.page ["com.a"] (Some "page2"));
                           Returned (Fake.page ["com.b"] None)]))
    as [[out s'] |] eqn:E; [| vm_compute in E; discriminate].
  destruct (requests_query_then_cursors _ _ _ _ _ _ _ _ E)
    as (first & later & H1 & H2 & H3).
  exists out, s', first, later. split; [reflexivity |].
  split; [exact H1 |]. split; assumption.
Defined.

(** ** The token cache and the logins *)

Section LoginProperties.

Variable client : Type.
Variable fs : Type.
Variable api_login : client -> login_request -> result unit * client.
Variable api_tokens : client -> tokens.
Variable fs_view : fs -> config_file.
Variable fs_makedirs : fs -> result unit * fs.
Variable fs_write_text : fs -> string -> result unit * fs.
Variable json_load : string -> result value.
Variable json_dump : value -> string.

Abbreviation save := (_save_config api_tokens fs_makedirs fs_write_text json_dump).
Abbreviation fresh_login :=
  (login_and_save api_login api_tokens fs_makedirs fs_write_text json_dump).
Abbreviation anonymous :=
  (login_anonymous api_login api_tokens fs_view fs_makedirs fs_write_text
     json_load json_dump).

Lemma save_then_load (s : session client) (w w' : fs) :
  reliable fs_view fs_makedirs fs_write_text ->
  json_load (json_dump (config_of (api_tokens (api s))))
  = Ok (config_of (api_tokens (api s))) ->
  save s w = (Ok tt, w') ->
  _load_config json_load (fs_view w') = Ok (config_of (api_tokens (api s))).
Proof.
  intros Hfs Hjson H. unfold _save_config in H.
  destruct (fs_makedirs w) as [made w1] eqn:Em.
  destruct made as [[] | e]; [| discriminate].
  rewrite (Hfs _ _ _ _ Em H).
  unfold _load_config. simpl. now rewrite Hjson.
Qed.

(** What [_save_config] has written is what [_load_config] returns: on a
    file system that reads back what was written, and with a JSON codec
    that decodes the dict of the tokens from its encoding, the load that
    follows a save returns the five tokens of the client under their
    keys. *)
Theorem saved_config_is_loaded (s : session client) (w w' : fs) :
  reliable fs_view fs_makedirs fs_write_text ->
  json_load (json_dump (config_of (api_tokens (api s))))
  = Ok (config_of (api_tokens (api s))) ->
  save s w = (Ok tt, w') ->
  _load_config json_load (fs_view w') = Ok (config_of (api_tokens (api s))).
Proof. exact (save_then_load s w w'). Qed.

Lemma login_and_save_outcome (req : login_request) (s : session client)
    (w : fs) (r : result bool) (s' : session client) (w' : fs) :
  fresh_login req s w = (r, s', w') ->
  (r = Ok true /\ _logged_in s' = true /\ effects s' = effects s
   /\ api_login (api s) req = (Ok tt, api s')
   /\ save s' w = (Ok tt, w'))
  \/ (exists e, r = Raise e /\ _logged_in s' = _logged_in s
                /\ effects s' = effects s
                /\ (w' = w \/ api_login (api s) req = (Ok tt, api s'))).
Proof.
  unfold login_and_save. intros H.
  destruct (api_login (api s) req) as [answer c] eqn:El.
  destruct answer as [[] | e].
  - destruct (save (set_api c s) w) as [saved w1] eqn:Es.
    destruct saved as [[] | e]; injection H as <- <- <-.
    + left. repeat split; try reflexivity. exact Es.
    + right. exists e. repeat split; try reflexivity. now right.
  - injection H as <- <- <-. right. exists e.
    repeat split; try reflexivity. now left.
Qed.

Lemma login_anonymous_outcome (force_new : bool)
    (s : session client) (w : fs) (r : result bool) (s' : session client)
    (w' : fs) :
  anonymous force_new s w = (r, s', w') ->
  ((r = Ok true /\ _logged_in s' = true
    /\ exists c req, api_login c req = (Ok tt, api s'))
   \/ (exists e, r = Raise e /\ _logged_in s' = _logged_in s))
  /\ (w' = w \/ exists c, api_login c LoginAnonymous = (Ok tt, api s')).
Proof.
  assert (Fresh : forall s0 r s' w',
             fresh_login LoginAnonymous s0 w = (r, s', w') ->
             _logged_in s0 = _logged_in s ->
             ((r = Ok true /\ _logged_in s' = true
               /\ exists c req, api_login c req = (Ok tt, api s'))
              \/ (exists e, r = Raise e /\ _logged_in s' = _logged_in s))
             /\ (w' = w
                 \/ exists c, api_login c LoginAnonymous = (Ok tt, api s'))).
  { intros s0 r0 s0' w0' H Hflag.
    destruct (login_and_save_outcome _ _ _ _ _ _ H)
      as [(-> & Hl & _ & Ha & _) | (e & -> & Hl & _ & Hw)].
    - split; [left | right]; eauto.
    - split; [right; exists e; split; congruence |].
      destruct Hw as [-> | Hw]; eauto. }
  unfold login_anonymous. intros H.
  destruct (negb force_new); [| now apply (Fresh s)].
  destruct (_load_config json_load (fs_view w)) as [config | e].
  - destruct (truthy config); [| now apply (Fresh s)].
    destruct (as_dict config) as [cfg | e].
    + destruct (truthy (get cfg "gsfId") && truthy (get cfg "authSubToken"));
        [| now apply (Fresh s)].
      destruct (cached_request cfg) as [req | e]; [| now apply (Fresh s)].
      destruct (api_login (api s) req) as [answer c] eqn:El.
      destruct answer as [[] | e].
      * injection H as <- <- <-. split; [left | now left].
        repeat split. exists (api s), req. exact El.
      * now apply (Fresh (set_api c s)).
    + injection H as <- <- <-. split; [right | now left]. eauto.
  - injection H as <- <- <-. split; [right | now left]. eauto.
Qed.

(** A login marks the session as logged in only after the client has
    accepted a login, and writes the file only after the client has
    accepted a new login; when it raises, the flag is as before. *)
Theorem login_marks_after_client_login (force_new : bool)
    (s : session client) (w : fs) (r : result bool) (s' : session client)
    (w' : fs) :
  anonymous force_new s w = (r, s', w') ->
  ((r = Ok true /\ _logged_in s' = true
    /\ exists c req, api_login c req = (Ok tt, api s'))
   \/ (exists e, r = Raise e /\ _logged_in s' = _logged_in s))
  /\ (w' = w \/ exists c, api_login c LoginAnonymous = (Ok tt, api s')).
Proof. exact (login_anonymous_outcome force_new s w r s' w'). Qed.

(** A cache file that decodes to a truthy value other than a dict (a
    list, a string, a number) is not treated as a missing cache:
    [login_anonymous] raises AttributeError, with no login attempted and
    nothing written. *)
Theorem login_anonymous_rejects_non_dict_cache (s : session client)
    (w : fs) (config : value) :
  _load_config json_load (fs_view w) = Ok config ->
  truthy config = true ->
  is_dict config = false ->
  anonymous false s w = (Raise AttributeError, s, w).
Proof.
  intros Hload Ht Hd. unfold login_anonymous. simpl. rewrite Hload, Ht.
  destruct config; try reflexivity. discriminate.
Qed.

(** The tokens saved by a login are the ones presented by the next
    [login_anonymous]: after a login that was saved, on a reliable file
    system and with a faithful codec, the client is asked to log in with
    the saved identifier and tokens; if it accepts, nothing more is
    requested nor written, and if it refuses, new anonymous tokens are
    requested. *)
Theorem saved_tokens_are_presented (req : login_request)
    (s s1 s2 : session client) (w w1 : fs) (b : bool) (g : Z) :
  reliable fs_view fs_makedirs fs_write_text ->
  json_load (json_dump (config_of (api_tokens (api s1))))
  = Ok (config_of (api_tokens (api s1))) ->
  fresh_login req s w = (Ok b, s1, w1) ->
  gsfId (api_tokens (api s1)) = VInt g -> g <> 0 ->
  truthy (authSubToken (api_tokens (api s1))) = true ->
  anonymous false s2 w1
  = (let '(answer, c) :=
       api_login (api s2)
         (LoginCached g (authSubToken (api_tokens (api s1)))
            (deviceCheckinConsistencyToken (api_tokens (api s1)))
            (deviceConfigToken (api_tokens (api s1)))
            (dfeCookie (api_tokens (api s1)))) in
     match answer with
     | Ok _ => (Ok true, set_logged_in (set_api c s2), w1)
     | Raise _ => fresh_login LoginAnonymous (set_api c s2) w1
     end).
Proof.
  intros Hfs Hjson Hlogin Hg Hg0 Hauth.
  destruct (login_and_save_outcome _ _ _ _ _ _ Hlogin)
    as [(_ & _ & _ & _ & Hsave) | (e & He & _)]; [| discriminate].
  pose proof (save_then_load _ _ _ Hfs Hjson Hsave) as Hload.
  unfold login_anonymous. simpl negb. cbn iota. rewrite Hload.
  unfold config_of at 1 2. cbn [truthy as_dict].
  unfold cached_request, get, get_or. simpl lookup. cbn iota.
  rewrite Hg, Hauth. simpl truthy.
  assert (E : (g =? 0) = false) by (apply Z.eqb_neq; exact Hg0).
  rewrite E. simpl.
  destruct (api_login (api s2) _) as [answer c].
  destruct answer; reflexivity.
Qed.

End LoginProperties.

Section PasswordLogin.

Variable client : Type.
Variable fs : Type.
Variable api_login : client -> login_request -> result unit * client.
Variable api_tokens : client -> tokens.
Variable fs_view : fs -> config_file.
Variable fs_makedirs : fs -> result unit * fs.
Variable fs_write_text : fs -> string -> result unit * fs.
Variable json_load : string -> result value.
Variable json_dump : value -> string.

(** When [login] returns, the client has accepted the credentials, the
    session is logged in, and the cache file holds the tokens that the
    client then has: a load gives them back. *)
Theorem login_leaves_tokens_in_cache (email password : string)
    (s s' : session client) (w w' : fs) (b : bool) :
  reliable fs_view fs_makedirs fs_write_text ->
  json_load (json_dump (config_of (api_tokens (api s'))))
  = Ok (config_of (api_tokens (api s'))) ->
  login api_login api_tokens fs_makedirs fs_write_text json_dump
    email password s w = (Ok b, s', w') ->
  api_login (api s) (LoginPassword email password) = (Ok tt, api s')
  /\ _logged_in s' = true
  /\ _load_config json_load (fs_view w')
     = Ok (config_of (api_tokens (api s'))).
Proof.
  intros Hfs Hjson H. unfold login in H.
  destruct (login_and_save_outcome _ _ _ _ _ _ _ _ _ _ _ _ _ H)
    as [(_ & Hl & _ & Ha & Hs) | (e & He & _)]; [| discriminate].
  split; [exact Ha |]. split; [exact Hl |].
  apply (save_then_load _ _ _ _ _ _ _ _ _ _ _ Hfs Hjson Hs).
Qed.

End PasswordLogin.

Section DetailsProperties.

Variable client : Type.
Variable fs : Type.
Variable api_login : client -> login_request -> result unit * client.
Variable api_tokens : client -> tokens.
Variable api_details : client -> string -> result value * client.
Variable fs_view : fs -> config_file.
Variable fs_makedirs : fs -> result unit * fs.
Variable fs_write_text : fs -> string -> result unit * fs.
Variable json_load : string -> result value.
Variable json_dump : value -> string.

(** [details] asks the client for an app only in a session that is logged
    in, and its answer is the client's.  A session that was logged in is
    used as it is and nothing is written; otherwise the anonymous login
    comes first, and when that login raises, [details] raises the same
    error without asking, the session staying not logged in. *)
Theorem details_asks_a_logged_in_client (package_name : string)
    (s : session client) (w : fs) (r : result value) (s' : session client)
    (w' : fs) :
  details api_login api_tokens api_details fs_view fs_makedirs
    fs_write_text json_load json_dump package_name s w = (r, s', w') ->
  (exists s1,
      api_details (api s1) package_name = (r, api s')
      /\ _logged_in s1 = true /\ _logged_in s' = true
      /\ ((s1 = s /\ w' = w)
          \/ (_logged_in s = false
              /\ login_anonymous api_login api_tokens fs_view fs_makedirs
                   fs_write_text json_load json_dump false s w
                 = (Ok true, s1, w'))))
  \/ (exists e,
        r = Raise e /\ _logged_in s = false /\ _logged_in s' = false
        /\ login_anonymous api_login api_tokens fs_view fs_makedirs
             fs_write_text json_load json_dump false s w
           = (Raise e, s', w')).
Proof.
  unfold details. intros H. destruct (_logged_in s) eqn:Hflag.
  - destruct (api_details (api s) package_name) as [answer c] eqn:Ed.
    injection H as <- <- <-. left. exists s.
    repeat split; try assumption. now left.
  - destruct (login_anonymous _ _ _ _ _ _ _ false s w) as [[ready s1] w1]
      eqn:El.
    destruct (login_anonymous_outcome _ _ _ _ _ _ _ _ _ _ _ _ _ _ _ El)
      as [[(-> & Hl & _) | (e & -> & Hl)] _].
    + destruct (api_details (api s1) package_name) as [answer c] eqn:Ed.
      injection H as <- <- <-. left. exists s1.
      repeat split; try assumption. right. now split.
    + injection H as <- <- <-. right. exists e.
      repeat split; congruence.
Qed.

End DetailsProperties.

Lemma disk_reliable :
  reliable Disk.fs_view Disk.fs_makedirs Disk.fs_write_text.
Proof.
  intros w w1 w2 text H1 H2. unfold Disk.fs_write_text in H2.
  injection H2 as <-. reflexivity.
Qed.

Lemma saved_config_is_loaded_witness :
  _load_config Dispenser.json_load (Disk.fs_view (Some "{tokens}"))
  = Ok (config_of Dispenser.fresh).
Proof.
  apply (saved_config_is_loaded Dispenser.client Disk.fs
           Dispenser.api_tokens Disk.fs_view Disk.fs_makedirs
           Disk.fs_write_text Dispenser.json_load Dispenser.json_dump
           {| api := Dispenser.fresh; _logged_in := false; effects := [] |}
           None (Some "{tokens}") disk_reliable); reflexivity.
Defined.

Lemma login_marks_after_client_login_witness :
  exists s' w',
    Dispenser.login_anonymous false Dispenser.start None = (Ok true, s', w')
    /\ _logged_in s' = true.
Proof.
  destruct (Dispenser.login_anonymous false Dispenser.start None)
    as [[r s'] w'] eqn:E.
  destruct (login_marks_after_client_login _ _ _ _ _ _ _ _ _ _ _ _ _ _ _ E)
    as [[(-> & Hl & _) | (e & -> & _)] _].
  - exists s', w'. split; [reflexivity | exact Hl].
  - vm_compute in E. discriminate.
Defined.

Lemma login_anonymous_rejects_non_dict_cache_witness :
  Dispenser.login_anonymous false Dispenser.start (Some "[1]")
  = (Raise AttributeError, Dispenser.start, Some "[1]").
Proof.
  apply (login_anonymous_rejects_non_dict_cache Dispenser.client Disk.fs
           Dispenser.api_login Dispenser.api_tokens Disk.fs_view
           Disk.fs_makedirs Disk.fs_write_text Dispenser.json_load
           Dispenser.json_dump Dispenser.start (Some "[1]")
           (VList [VInt 1])); reflexivity.
Defined.

Lemma saved_tokens_are_presented_witness :
  Dispenser.login_anonymous false Dispenser.start (Some "{tokens}")
  = (Ok true,
     set_logged_in (set_api Dispenser.fresh Dispenser.start),
     Some "{tokens}").
Proof.
  unfold Dispenser.login_anonymous.
  rewrite (saved_tokens_are_presented Dispenser.client Disk.fs
             Dispenser.api_login Dispenser.api_tokens Disk.fs_view
             Disk.fs_makedirs Disk.fs_write_text Dispenser.json_load
             Dispenser.json_dump LoginAnonymous Dispenser.start
             (set_logged_in (set_api Dispenser.fresh Dispenser.start))
             Dispenser.start None (Some "{tokens}") true 42
             disk_reliable eq_refl eq_refl eq_refl);
    [reflexivity | discriminate | reflexivity].
Defined.

Lemma login_leaves_tokens_in_cache_witness :
  exists s' w',
    login Dispenser.api_login Dispenser.api_tokens Disk.fs_makedirs
      Disk.fs_write_text Dispenser.json_dump
      "user@example.com" "secret" Dispenser.start None
    = (Ok true, s', w')
    /\ _load_config Dispenser.json_load (Disk.fs_view w')
       = Ok (config_of (api s')).
Proof.
  destruct (login Dispenser.api_login Dispenser.api_tokens Disk.fs_makedirs
              Disk.fs_write_text Dispenser.json_dump
              "user@example.com" "secret" Dispenser.start None)
    as [[r s'] w'] eqn:E.
  assert (E' := E). vm_compute in E'. injection E' as <- Hs Hw.
  exists s', w'. split; [reflexivity |].
  apply (login_leaves_tokens_in_cache Dispenser.client Disk.fs
           Dispenser.api_login Dispenser.api_tokens Disk.fs_view
           Disk.fs_makedirs Disk.fs_write_text Dispenser.json_load
           Dispenser.json_dump "user@example.com" "secret"
           Dispenser.start s' None w' true disk_reliable);
    [rewrite <- Hs; reflexivity | exact E].
Defined.

Lemma details_asks_a_logged_in_client_witness :
  exists s1,
    _logged_in s1 = true
    /\ Dispenser.login_anonymous false Dispenser.start None
       = (Ok true, s1, Some "{tokens}"%string).
Proof.
  destruct (details Dispenser.api_login Dispenser.api_tokens
              (fun c p => (Ok (VStr p), c)) Disk.fs_view Disk.fs_makedirs
              Disk.fs_write_text Dispenser.json_load Dispenser.json_dump
              "com.example.app" Dispenser.start None)
    as [[r s'] w'] eqn:E.
  destruct (details_asks_a_logged_in_client Dispenser.client Disk.fs
              Dispenser.api_login Dispenser.api_tokens
              (fun c p => (Ok (VStr p), c)) Disk.fs_view Disk.fs_makedirs
              Disk.fs_write_text Dispenser.json_load Dispenser.json_dump
              _ _ _ _ _ _ E)
    as [(s1 & _ & Hl & _ & [[-> _] | [_ Ha]]) | (e & -> & _)].
  - discriminate Hl.
  - exists s1. split; [exact Hl |].
    vm_compute in E. injection E as _ _ <-. exact Ha.
  - vm_compute in E. discriminate E.
Defined.
